(** * Space Bio Engine: the search page, the QA page and the engine contract

    A shallow embedding of the client code of the repository
    ([frontend/src/pages/SearchPage.tsx], the QA page) and, for the parts of
    the engine that only exist as a written contract, a model made from that
    contract.  Definitions come first, properties follow. *)

From Stdlib Require Import ZArith NArith List String Ascii DecimalString.
From Stdlib Require Import QArith Floats Sorting.Sorted Sorting.Permutation Lia.
From stdpp Require Import base option list gmap strings.

Set Warnings "-register-all".
Local Open Scope N_scope.

(* ===================================================================== *)
(** * Part I. Definitions *)
(* ===================================================================== *)

(** ** JavaScript strings

    A JavaScript string is a sequence of UTF-16 code units: [length],
    [slice], [trim] and regular expressions without the [u] flag all work on
    code units, so the model does too. *)
Module JS.

(** A code unit, [0] to [65535]. *)
Definition char16 := N.
(** A string value. *)
Definition jsstring := list char16.

(** An ASCII literal of the source, as code units. *)
Definition lit (s : string) : jsstring :=
  map N_of_ascii (list_ascii_of_string s).

(** [WhiteSpace] and [LineTerminator] of ECMAScript: what [trim] strips and
    what [\s] matches. *)
Definition is_white_space (c : char16) : bool :=
  (c =? 9) || (c =? 10) || (c =? 11) || (c =? 12) || (c =? 13) || (c =? 32)
  || (c =? 160) || (c =? 5760) || ((8192 <=? c) && (c <=? 8202))
  || (c =? 8232) || (c =? 8233) || (c =? 8239) || (c =? 8287)
  || (c =? 12288) || (c =? 65279).

(** [s.trimStart()] *)
Fixpoint trimStart (s : jsstring) : jsstring :=
  match s with
  | c :: s' => if is_white_space c then trimStart s' else s
  | [] => []
  end.

(** [s.trimEnd()] *)
Definition trimEnd (s : jsstring) : jsstring := rev (trimStart (rev s)).

(** [s.trim()] *)
Definition trim (s : jsstring) : jsstring := trimEnd (trimStart s).

(** A string is truthy when it is not empty. *)
Definition truthy_string (s : jsstring) : bool :=
  match s with [] => false | _ :: _ => true end.

(** [`${n}`] for a non-negative integer. *)
Definition of_N (n : N) : jsstring := lit (NilZero.string_of_uint (N.to_uint n)).

(** [\d] *)
Definition is_digit (c : char16) : bool := (48 <=? c) && (c <=? 57).

(** Upper case of an ASCII code unit. *)
Definition ascii_upper (c : char16) : char16 :=
  if (97 <=? c) && (c <=? 122) then c - 32 else c.

(** What the host supplies and the pages only call. *)
Class Runtime := {
  (** [String.prototype.toLowerCase] *)
  toLowerCase : jsstring -> jsstring;
  (** the single code unit upper case mapping of a code unit at or above 128,
      the code unit itself when it has none *)
  upper16 : char16 -> char16;
  (** [encodeURIComponent]: [inr] the encoded text, [inl] the message of the
      [URIError] it throws on a lone surrogate *)
  encodeURIComponent : jsstring -> jsstring + jsstring;
  (** the message of the [TypeError] raised when a property is read from
      [null] *)
  nullPropertyMessage : jsstring -> jsstring
}.

(** [Canonicalize] of a regular expression with the [i] flag and without the
    [u] flag: the upper case of the code unit, unless that maps a code unit
    at or above 128 into ASCII. *)
Definition canonicalize `{Runtime} (c : char16) : char16 :=
  if c <? 128 then ascii_upper c
  else let cu := upper16 c in if cu <? 128 then c else cu.

(** Values as [JSON.parse] and property reads produce them. *)
Inductive value :=
| VUndefined
| VNull
| VBool (b : bool)
| VNum (f : float)
| VStr (s : jsstring)
| VArr (items : list value)
| VObj (members : list (jsstring * value)).

(** [ToBoolean] *)
Definition truthy (v : value) : bool :=
  match v with
  | VUndefined | VNull => false
  | VBool b => b
  | VNum f => negb (PrimFloat.eqb f 0 || PrimFloat.is_nan f)
  | VStr s => truthy_string s
  | VArr _ | VObj _ => true
  end.

(** [a || b] *)
Definition or_else (a b : value) : value := if truthy a then a else b.

(** The own property [k] of an object, [undefined] when it has none. *)
Fixpoint own_member (k : jsstring) (ms : list (jsstring * value)) : value :=
  match ms with
  | [] => VUndefined
  | (k', v) :: ms' => if decide (k = k') then v else own_member k ms'
  end.

(** [v.k] for a key [k] that no built-in prototype defines ([results],
    [summary]): [None] is the [TypeError] of reading from [null] or
    [undefined]. *)
Definition member (k : jsstring) (v : value) : option value :=
  match v with
  | VUndefined | VNull => None
  | VObj ms => Some (own_member k ms)
  | _ => Some VUndefined
  end.

(** A length as a number. *)
Definition num_of_nat (n : nat) : value :=
  VNum (PrimFloat.of_uint63 (Uint63.of_Z (Z.of_nat n))).

(** [v.length] of a value that is not [null] or [undefined]. *)
Definition length_of (v : value) : value :=
  match v with
  | VStr s => num_of_nat (length s)
  | VArr l => num_of_nat (length l)
  | VObj ms => own_member (lit "length") ms
  | _ => VUndefined
  end.

End JS.

(** ** Effects of an event handler

    A handler reads the state of its component, replaces parts of it, sends
    requests and may throw.  It is run to completion against a server that
    answers each request; what it did is the trace. *)
Module Handler.
Import JS.

(** What [catch (err)] can receive: an [Error] with its message, or any
    other value. *)
Inductive thrown :=
| ThrownError (message : jsstring)
| ThrownOther.

(** [err instanceof Error ? err.message : fallback] *)
Definition message_or (err : thrown) (fallback : jsstring) : jsstring :=
  match err with ThrownError m => m | ThrownOther => fallback end.

(** What [fetch] is called with. *)
Record Request := mkRequest {
  req_url : jsstring;
  req_method : jsstring;
  req_headers : list (jsstring * jsstring)
}.

(** [fetch(url)] *)
Definition plain_get (url : jsstring) : Request :=
  mkRequest url (lit "GET") [].

(** [fetch(url, { method: "GET", headers: { "Content-Type": "application/json" } })] *)
Definition json_get (url : jsstring) : Request :=
  mkRequest url (lit "GET") [(lit "Content-Type", lit "application/json")].

(** A response: its status and what [json()] resolves to or rejects with. *)
Record Response := mkResponse {
  status : N;
  json_body : thrown + value
}.

(** [response.ok] *)
Definition ok (r : Response) : bool := (200 <=? status r) && (status r <=? 299).

(** How the outside answers a request: [fetch] rejects or resolves. *)
Definition Server := Request -> thrown + Response.

(** What a handler does to the outside, in order. *)
Inductive Effect :=
| PreventDefault
| Fetch (r : Request)
| ConsoleLog (label : jsstring) (v : value).

(** A computation over the state [S] of a component and the trace: it
    returns or throws. *)
Definition Eff (S A : Type) : Type :=
  S * list Effect -> (thrown + A) * (S * list Effect).

(** [return a] *)
Definition pure {S A} (a : A) : Eff S A := fun w => (inr a, w).

(** [m] then [k]; a throw of [m] passes [k] by. *)
Definition bind {S A B} (m : Eff S A) (k : A -> Eff S B) : Eff S B :=
  fun w => match m w with
           | (inr a, w') => k a w'
           | (inl t, w') => (inl t, w')
           end.

#[global] Instance eff_ret {S} : MRet (Eff S) := @pure S.
#[global] Instance eff_bind {S} : MBind (Eff S) := fun A B k m => bind m k.

(** [throw t] *)
Definition throw {S A} (t : thrown) : Eff S A := fun w => (inl t, w).

(** the state the handler closed over *)
Definition read {S} : Eff S S := fun w => (inr (fst w), w).

(** a [setX(...)] call *)
Definition update {S} (f : S -> S) : Eff S unit :=
  fun w => (inr tt, (f (fst w), snd w)).

(** One more effect on the trace. *)
Definition emit {S} (e : Effect) : Eff S unit :=
  fun w => (inr tt, (fst w, snd w ++ [e])).

(** [try { body } catch (err) { handler err }] *)
Definition try_catch {S A} (body : Eff S A) (handler : thrown -> Eff S A) : Eff S A :=
  fun w => match body w with
           | (inl t, w') => handler t w'
           | r => r
           end.

(** [try { body } finally { fin }] *)
Definition try_finally {S A} (body : Eff S A) (fin : Eff S unit) : Eff S A :=
  fun w => match body w with
           | (r, w') => match fin w' with
                        | (inl t, w'') => (inl t, w'')
                        | (inr _, w'') => (r, w'')
                        end
           end.

(** a builtin that returns or throws an [Error] *)
Definition call {S A} (r : jsstring + A) : Eff S A :=
  match r with inl m => throw (ThrownError m) | inr a => mret a end.

(** [await fetch(r)] *)
Definition fetch {S} (server : Server) (r : Request) : Eff S Response :=
  emit (Fetch r);;
  match server r with inl t => throw t | inr resp => mret resp end.

(** [await resp.json()] *)
Definition json {S} (resp : Response) : Eff S value :=
  match json_body resp with inl t => throw t | inr v => mret v end.

(** [v.k], a [TypeError] on [null] and [undefined] *)
Definition get_member {S} `{Runtime} (k : jsstring) (v : value) : Eff S value :=
  match member k v with
  | Some x => mret x
  | None => throw (ThrownError (nullPropertyMessage k))
  end.

(** The state and the effects a handler leaves when started in [st]. *)
Definition run {S A} (h : Eff S A) (st : S) : (thrown + A) * (S * list Effect) :=
  h (st, []).

(** The state a handler leaves. *)
Definition final_state {S A} (h : Eff S A) (st : S) : S := fst (snd (run h st)).
(** The trace a handler leaves. *)
Definition effects {S A} (h : Eff S A) (st : S) : list Effect := snd (snd (run h st)).

(** The requests among the effects. *)
Definition requests (es : list Effect) : list Request :=
  omap (fun e => match e with Fetch r => Some r | _ => None end) es.

(** Unfolds the steps of a handler. *)
Ltac run_handler :=
  unfold try_finally, try_catch, call, fetch, json, get_member, update, emit,
    throw, read, mbind, eff_bind, bind, mret, eff_ret, pure; cbn [fst snd].

End Handler.

(** ** [frontend/src/pages/SearchPage.tsx] *)
Module SearchPage.
Import JS Handler.

(** [interface SearchMeta]; [title] may be missing in what the server sent,
    which [renderSnippet] provides for. *)
Record SearchMeta := mkMeta {
  paper_id : jsstring;
  title : option jsstring;
  section : option jsstring;
  chunk_id : option float
}.

(** [interface SearchResult]; [meta] is read through [?.] by
    [renderSnippet]. *)
Record SearchResult := mkResult {
  score : float;
  meta : option SearchMeta;
  snippet : option jsstring
}.

(** *** [highlightText] *)

(** [s.split(/\s+/)]: the pieces between the maximal runs of white space;
    [cur] is the piece being read, reversed, and [in_gap] says that the
    last code unit read was white space. *)
Fixpoint split_ws_from (cur : jsstring) (in_gap : bool) (s : jsstring) : list jsstring :=
  match s with
  | [] => [rev cur]
  | c :: s' =>
      if is_white_space c
      then (if in_gap then split_ws_from cur true s'
            else rev cur :: split_ws_from [] true s')
      else split_ws_from (c :: cur) false s'
  end.

(** [s.split(/\s+/)] *)
Definition split_ws (s : jsstring) : list jsstring := split_ws_from [] false s.

(** [Array.from(new Set(xs))]: the first occurrence of each element, in
    order. *)
Fixpoint unique_from (seen : list jsstring) (xs : list jsstring) : list jsstring :=
  match xs with
  | [] => []
  | x :: xs' =>
      if decide (x ∈ seen) then unique_from seen xs'
      else x :: unique_from (x :: seen) xs'
  end.

(** [Array.from(new Set(xs))] *)
Definition unique (xs : list jsstring) : list jsstring := unique_from [] xs.

Section Patterns.
Context `{Runtime}.

(** The escaped token matched at the head of [text] under the [i] flag: the
    code units of [text] it covers. *)
Fixpoint match_token (tok text : jsstring) : option jsstring :=
  match tok, text with
  | [], _ => Some []
  | t :: tok', c :: text' =>
      if decide (canonicalize t = canonicalize c)
      then option_map (cons c) (match_token tok' text')
      else None
  | _ :: _, [] => None
  end.

(** The alternation [(t1|t2|...)] at the head of [text]: the first token
    that matches. *)
Fixpoint match_alternation (tokens : list jsstring) (text : jsstring) : option jsstring :=
  match tokens with
  | [] => None
  | tok :: rest =>
      match match_token tok text with
      | Some m => Some m
      | None => match_alternation rest text
      end
  end.

(** The replacement [<mark>$1</mark>] of a match [m]. *)
Definition mark (m : jsstring) : jsstring := lit "<mark>" ++ m ++ lit "</mark>".

(** [text.replace(re, "<mark>$1</mark>")] with the [g] flag, from left to
    right; [skip] counts the code units of the current match still to pass.
    After an empty match the search resumes one code unit further. *)
Fixpoint replace_marks (tokens : list jsstring) (skip : nat) (text : jsstring) : jsstring :=
  match skip, text with
  | S k, _ :: rest => replace_marks tokens k rest
  | S _, [] => []
  | O, _ =>
      match match_alternation tokens text, text with
      | Some m, c :: rest =>
          mark m ++
          match m with
          | [] => c :: replace_marks tokens 0 rest
          | _ :: m' => replace_marks tokens (length m') rest
          end
      | Some m, [] => mark m
      | None, c :: rest => c :: replace_marks tokens 0 rest
      | None, [] => []
      end
  end.

(** [highlightText(text, query)] *)
Definition highlightText (text query : jsstring) : jsstring :=
  if negb (truthy_string text) || negb (truthy_string query) then text
  else
    let tokens := unique (split_ws (toLowerCase (trim query))) in
    if (length tokens =? 0)%nat then text
    else replace_marks tokens 0 text.

(** *** [getPaperLink] and the id of [openPaper] *)

(** The code unit [c] matches the letter [l] of the pattern under the [i]
    flag. *)
Definition is_letter (l c : char16) : bool :=
  if decide (canonicalize c = canonicalize l) then true else false.

(** What [\d*] takes at the head of [s]: the digits there, all of them. *)
Fixpoint digits_prefix (s : jsstring) : jsstring :=
  match s with
  | c :: s' => if is_digit c then c :: digits_prefix s' else []
  | [] => []
  end.

(** [/PMC\d+/i] at the head of [s]: the code units matched. *)
Definition pmc_here (s : jsstring) : option jsstring :=
  match s with
  | p :: m :: c :: d :: rest =>
      if is_letter 80 p && is_letter 77 m && is_letter 67 c && is_digit d
      then Some (p :: m :: c :: d :: digits_prefix rest)
      else None
  | _ => None
  end.

(** [s.match(/PMC\d+/i)]: [m[0]] of the leftmost match, the same as [m[1]]
    of [s.match(/(PMC\d+)/i)]. *)
Fixpoint match_pmc (s : jsstring) : option jsstring :=
  match pmc_here s with
  | Some m => Some m
  | None => match s with
            | [] => None
            | _ :: s' => match_pmc s'
            end
  end.

(** [getPaperLink(paper_id?)] *)
Definition getPaperLink (paper_id : option jsstring) : jsstring :=
  match paper_id with
  | None => lit "#"
  | Some id =>
      if negb (truthy_string id) then lit "#"
      else match match_pmc id with
           | Some m => lit "https://www.ncbi.nlm.nih.gov/pmc/articles/" ++ m ++ lit "/"
           | None => lit "#"
           end
  end.

(** [const cleanId = m ? m[0] : paperId] *)
Definition cleanId (paperId : jsstring) : jsstring :=
  match match_pmc paperId with
  | Some m => m
  | None => paperId
  end.

End Patterns.

(** *** [renderSnippet] *)

(** [r.meta?.title ?? "Untitled"] *)
Definition title_of (r : SearchResult) : jsstring :=
  match meta r with
  | Some m => match title m with Some t => t | None => lit "Untitled" end
  | None => lit "Untitled"
  end.

(** [r.meta?.section ? ` (${r.meta.section})` : ""] *)
Definition section_suffix (r : SearchResult) : jsstring :=
  match meta r with
  | Some m =>
      match section m with
      | Some s => if truthy_string s then lit " (" ++ s ++ lit ")" else []
      | None => []
      end
  | None => []
  end.

(** [renderSnippet(r)] *)
Definition renderSnippet (r : SearchResult) : jsstring :=
  match snippet r with
  | Some sn =>
      if truthy_string sn && (0 <? length (trim sn))%nat
      then
        let s := trim sn in
        if (400 <? length s)%nat then take 400 s ++ lit "..." else s
      else title_of r ++ section_suffix r
  | None => title_of r ++ section_suffix r
  end.

(** *** The state of the page *)

(** The [useState] cells of [SearchPage]; a cell filled from a response
    body holds whatever value the body had. *)
Record State := mkState {
  query : jsstring;
  results : value;
  loading : bool;
  error : option jsstring;
  totalCount : value;
  selectedPaper : value;
  paperLoading : bool;
  paperError : option jsstring;
  showModal : bool;
  paperSummary : value;
  summaryLoading : bool;
  summaryError : option jsstring;
  page : N
}.

(** The state of the first render. *)
Definition initial : State :=
  mkState [] (VArr []) false None VNull VNull false None false VNull false None 1.

(** The setters of the cells. *)
Definition setResults (v : value) (s : State) : State :=
  mkState (query s) v (loading s) (error s) (totalCount s) (selectedPaper s)
    (paperLoading s) (paperError s) (showModal s) (paperSummary s)
    (summaryLoading s) (summaryError s) (page s).

Definition setLoading (b : bool) (s : State) : State :=
  mkState (query s) (results s) b (error s) (totalCount s) (selectedPaper s)
    (paperLoading s) (paperError s) (showModal s) (paperSummary s)
    (summaryLoading s) (summaryError s) (page s).

Definition setError (e : option jsstring) (s : State) : State :=
  mkState (query s) (results s) (loading s) e (totalCount s) (selectedPaper s)
    (paperLoading s) (paperError s) (showModal s) (paperSummary s)
    (summaryLoading s) (summaryError s) (page s).

Definition setTotalCount (v : value) (s : State) : State :=
  mkState (query s) (results s) (loading s) (error s) v (selectedPaper s)
    (paperLoading s) (paperError s) (showModal s) (paperSummary s)
    (summaryLoading s) (summaryError s) (page s).

Definition setSelectedPaper (v : value) (s : State) : State :=
  mkState (query s) (results s) (loading s) (error s) (totalCount s) v
    (paperLoading s) (paperError s) (showModal s) (paperSummary s)
    (summaryLoading s) (summaryError s) (page s).

Definition setPaperLoading (b : bool) (s : State) : State :=
  mkState (query s) (results s) (loading s) (error s) (totalCount s) (selectedPaper s)
    b (paperError s) (showModal s) (paperSummary s)
    (summaryLoading s) (summaryError s) (page s).

Definition setPaperError (e : option jsstring) (s : State) : State :=
  mkState (query s) (results s) (loading s) (error s) (totalCount s) (selectedPaper s)
    (paperLoading s) e (showModal s) (paperSummary s)
    (summaryLoading s) (summaryError s) (page s).

Definition setShowModal (b : bool) (s : State) : State :=
  mkState (query s) (results s) (loading s) (error s) (totalCount s) (selectedPaper s)
    (paperLoading s) (paperError s) b (paperSummary s)
    (summaryLoading s) (summaryError s) (page s).

Definition setPaperSummary (v : value) (s : State) : State :=
  mkState (query s) (results s) (loading s) (error s) (totalCount s) (selectedPaper s)
    (paperLoading s) (paperError s) (showModal s) v
    (summaryLoading s) (summaryError s) (page s).

Definition setSummaryLoading (b : bool) (s : State) : State :=
  mkState (query s) (results s) (loading s) (error s) (totalCount s) (selectedPaper s)
    (paperLoading s) (paperError s) (showModal s) (paperSummary s)
    b (summaryError s) (page s).

Definition setSummaryError (e : option jsstring) (s : State) : State :=
  mkState (query s) (results s) (loading s) (error s) (totalCount s) (selectedPaper s)
    (paperLoading s) (paperError s) (showModal s) (paperSummary s)
    (summaryLoading s) e (page s).

Definition setPage (p : N) (s : State) : State :=
  mkState (query s) (results s) (loading s) (error s) (totalCount s) (selectedPaper s)
    (paperLoading s) (paperError s) (showModal s) (paperSummary s)
    (summaryLoading s) (summaryError s) p.

(** *** The handlers *)

Section Handlers.
Context `{Runtime} (server : Server).

(** The address of a search. *)
Definition search_url (q : jsstring) : jsstring :=
  lit "http://127.0.0.1:8000/search?q=" ++ q ++ lit "&k=50".

(** [handleSearch]; [e] is the form event when the form submitted. *)
Definition handleSearch (e : option unit) : Eff State unit :=
  st ← read;
  match e with Some _ => emit PreventDefault | None => mret tt end;;
  if negb (truthy_string (trim (query st))) then mret tt
  else
    update (setLoading true);;
    update (setError None);;
    update (setPage 1);;
    update (setTotalCount VNull);;
    try_finally
      (try_catch
         (q ← call (encodeURIComponent (query st));
          response ← fetch server (json_get (search_url q));
          (if negb (ok response)
           then throw (ThrownError (lit "API error: " ++ of_N (status response)))
           else mret tt);;
          data ← json response;
          found ← get_member (lit "results") data;
          update (setResults (or_else found (VArr [])));;
          update (setTotalCount (length_of (or_else found (VArr [])))))
         (fun err =>
            update (setError (Some (message_or err (lit "Failed to fetch results"))));;
            update (setResults (VArr []));;
            update (setTotalCount (VNum 0))))
      (update (setLoading false)).

(** The address of a paper. *)
Definition paper_url (id : jsstring) : jsstring :=
  lit "http://127.0.0.1:8000/paper/" ++ id.

(** The address of the summary of a paper. *)
Definition summary_url (id : jsstring) : jsstring :=
  lit "http://127.0.0.1:8000/paper_summarized/" ++ id.

(** The first [try] of [openPaper]: the paper itself. *)
Definition loadPaper (id : jsstring) : Eff State unit :=
  try_finally
    (try_catch
       (enc ← call (encodeURIComponent id);
        resp ← fetch server (plain_get (paper_url enc));
        (if negb (ok resp)
         then (if status resp =? 404
               then throw (ThrownError (lit "Paper not found on server"))
               else throw (ThrownError (lit "Paper API error: " ++ of_N (status resp))))
         else mret tt);;
        j ← json resp;
        emit (ConsoleLog (lit "[DEBUG] Paper response:") j);;
        update (setSelectedPaper j))
       (fun err =>
          update (setPaperError (Some (message_or err (lit "Failed to load paper"))))))
    (update (setPaperLoading false)).

(** The second [try] of [openPaper]: the summary. *)
Definition loadSummary (id : jsstring) : Eff State unit :=
  try_finally
    (try_catch
       (enc ← call (encodeURIComponent id);
        resp ← fetch server (plain_get (summary_url enc));
        (if negb (ok resp)
         then (if status resp =? 404
               then throw (ThrownError (lit "Summary not found"))
               else throw (ThrownError (lit "Summary API error: " ++ of_N (status resp))))
         else mret tt);;
        j ← json resp;
        s ← get_member (lit "summary") j;
        update (setPaperSummary (or_else s VNull)))
       (fun err =>
          update (setSummaryError (Some (message_or err (lit "Failed to load summary"))));;
          update (setPaperSummary VNull)))
    (update (setSummaryLoading false)).

(** [openPaper(paperId)] *)
Definition openPaper (paperId : jsstring) : Eff State unit :=
  update (setPaperLoading true);;
  update (setPaperError None);;
  update (setSelectedPaper VNull);;
  update (setShowModal true);;
  update (setPaperSummary VNull);;
  update (setSummaryLoading true);;
  update (setSummaryError None);;
  loadPaper (cleanId paperId);;
  loadSummary (cleanId paperId).

End Handlers.

End SearchPage.

(** ** The QA page ([QAPage], [handleSubmit]) *)
Module QAPage.
Import JS Handler.

(** The [useState] cells of [QAPage]. *)
Record State := mkState {
  question : jsstring;
  response : value;
  loading : bool;
  error : option jsstring
}.

(** The state of the first render. *)
Definition initial : State := mkState [] VNull false None.

(** The setters of the cells. *)
Definition setResponse (v : value) (s : State) : State :=
  mkState (question s) v (loading s) (error s).

Definition setLoading (b : bool) (s : State) : State :=
  mkState (question s) (response s) b (error s).

Definition setError (e : option jsstring) (s : State) : State :=
  mkState (question s) (response s) (loading s) e.

Section Handlers.
Context `{Runtime} (server : Server).

(** The address of a question. *)
Definition qa_url (q : jsstring) : jsstring :=
  lit "/qa?q=" ++ q ++ lit "&k=10".

(** [handleSubmit(e)] *)
Definition handleSubmit : Eff State unit :=
  st ← read;
  emit PreventDefault;;
  if negb (truthy_string (trim (question st))) then mret tt
  else
    update (setLoading true);;
    update (setError None);;
    update (setResponse VNull);;
    try_finally
      (try_catch
         (q ← call (encodeURIComponent (question st));
          res ← fetch server (json_get (qa_url q));
          (if negb (ok res)
           then throw (ThrownError (lit "API error: " ++ of_N (status res)))
           else mret tt);;
          data ← json res;
          update (setResponse data))
         (fun err =>
            update (setError (Some (message_or err (lit "Failed to get answer"))))))
      (update (setLoading false)).

End Handlers.

End QAPage.

(** ** The engine behind the endpoints

    The server that answers [/search] and the summary endpoint is not part
    of the sources; its contract is.  This module is a model of that
    contract. *)
Module Engine.

(** *** Search *)

(** Modelled from the spec: the descriptive fields of a Chunk that the
    MetadataStore keeps under the chunk id (the store itself is missing). *)
Record Chunk := mkChunk {
  chunk_paper : string;
  chunk_title : string;
  chunk_section : string;
  chunk_text : string
}.

(** Modelled from the spec: a SearchResult, [{score, meta:{paper_id, title,
    section, chunk_id}, snippet}], the snippet null when no text is
    extractable. *)
Record SearchResult := mkResult {
  score : Q;
  paper_id : string;
  title : string;
  section : string;
  chunk_id : Z;
  snippet : option string
}.

(** Modelled from the spec: the error kinds of the engine. *)
Inductive Error :=
| NotFound
| EmbeddingError
| IndexUnavailable
| SourceUnavailable
| SummarizationFailed
| CacheIOError
| StorageError.

(** Modelled from the spec: "sort results by score descending, ties broken
    by ascending chunk id". *)
Definition ranks_before (a b : SearchResult) : bool :=
  match (score a ?= score b)%Q with
  | Gt => true
  | Eq => (chunk_id a <=? chunk_id b)%Z
  | Lt => false
  end.

(** Modelled from the spec: the sort of the search algorithm, as an
    insertion sort under [ranks_before]. *)
Fixpoint insert_ranked (r : SearchResult) (rs : list SearchResult) : list SearchResult :=
  match rs with
  | [] => [r]
  | x :: rs' => if ranks_before r x then r :: x :: rs' else x :: insert_ranked r rs'
  end.

(** Modelled from the spec: see [insert_ranked]. *)
Fixpoint sort_ranked (rs : list SearchResult) : list SearchResult :=
  match rs with
  | [] => []
  | r :: rs' => insert_ranked r (sort_ranked rs')
  end.

(** Modelled from the spec: the per-document mode, "keep only the single
    highest-scoring chunk per paper id, preserving order", on a ranked
    list. *)
Fixpoint per_paper (seen : list string) (rs : list SearchResult) : list SearchResult :=
  match rs with
  | [] => []
  | r :: rs' =>
      if decide (paper_id r ∈ seen) then per_paper seen rs'
      else r :: per_paper (paper_id r :: seen) rs'
  end.

(** Modelled from the spec: what "sorted by non-increasing score, ties
    broken by ascending chunk id" asks of two results, the first listed
    before the second. *)
Definition in_rank_order (a b : SearchResult) : Prop :=
  (score b <= score a)%Q /\ ((score a == score b)%Q -> (chunk_id a <= chunk_id b)%Z).

Section Search.
(** the Embedder's vectors *)
Context {vector : Type}.
(** Embedder: [None] when it cannot produce a vector *)
Context (embed : string -> option vector).
(** VectorIndex: the nearest chunk ids with their distances, [None] when it
    cannot be queried *)
Context (nearest : vector -> nat -> option (list (Z * Q))).
(** MetadataStore: chunk id to metadata *)
Context (chunks : gmap Z Chunk).
(** the transform from distance to score *)
Context (to_score : Q -> Q).
(** the implementation-defined maximum of [k] *)
Context (max_k : nat).

(** Modelled from the spec: a hit with its metadata resolved, [None] for an
    id with no metadata (skipped); the snippet is the chunk's raw text, null
    when that is empty. *)
Definition resolve (hit : Z * Q) : option SearchResult :=
  match chunks !! hit.1 with
  | Some c =>
      Some (mkResult (to_score hit.2) (chunk_paper c) (chunk_title c)
              (chunk_section c) hit.1
              (if decide (chunk_text c = EmptyString) then None else Some (chunk_text c)))
  | None => None
  end.

(** Modelled from the spec: [search(query, k)] of the SearchEngine, with the
    per-document mode flag. *)
Definition search (per_document : bool) (query : string) (k : nat)
  : Error + list SearchResult :=
  match embed query with
  | None => inl EmbeddingError
  | Some v =>
      match nearest v (Nat.min k max_k) with
      | None => inl IndexUnavailable
      | Some hits =>
          let ranked := sort_ranked (omap resolve hits) in
          inr (if per_document then per_paper [] ranked else ranked)
      end
  end.

End Search.

(** *** Summaries *)

(** Modelled from the spec: a Summary (the pipeline that makes it is
    missing). *)
Record Summary := mkSummary {
  sum_paper : string;
  intro : string;
  key_points : list string;
  outro : string;
  plain_text : string
}.

(** Modelled from the spec: a JSON document; a number keeps its literal. *)
Inductive json :=
| JNull
| JBool (b : bool)
| JNum (literal : string)
| JStr (s : string)
| JArr (items : list json)
| JObj (members : list (string * json)).

(** Modelled from the spec: non-empty string. *)
Definition nonempty (s : string) : bool :=
  match s with EmptyString => false | String _ _ => true end.

(** Modelled from the spec: "a Summary is considered valid only if all five
    fields are non-empty strings and key_points has exactly 4 entries". *)
Definition valid (s : Summary) : bool :=
  nonempty (sum_paper s) && nonempty (intro s) && (length (key_points s) =? 4)%nat
  && nonempty (outro s) && nonempty (plain_text s).

(** Modelled from the spec: the member of an object. *)
Fixpoint field (k : string) (ms : list (string * json)) : option json :=
  match ms with
  | [] => None
  | (k', v) :: ms' => if decide (k = k') then Some v else field k ms'
  end.

(** Modelled from the spec: a member that is a string. *)
Definition string_field (k : string) (ms : list (string * json)) : option string :=
  match field k ms with Some (JStr s) => Some s | _ => None end.

(** Modelled from the spec: a member that is an array of strings. *)
Definition strings_field (k : string) (ms : list (string * json)) : option (list string) :=
  match field k ms with
  | Some (JArr items) =>
      mapM (fun j => match j with JStr s => Some s | _ => None end) items
  | _ => None
  end.

(** Modelled from the spec: the serialization of the SummaryCache, to the
    JSON document of the entry. *)
Definition serialize (s : Summary) : json :=
  JObj [("paper_id", JStr (sum_paper s));
        ("intro", JStr (intro s));
        ("key_points", JArr (map JStr (key_points s)));
        ("outro", JStr (outro s));
        ("plain_text", JStr (plain_text s))].

(** Modelled from the spec: the deserialization of the SummaryCache; an
    entry that is not a valid Summary is corrupt. *)
Definition deserialize (j : json) : option Summary :=
  match j with
  | JObj ms =>
      p ← string_field "paper_id" ms;
      i ← string_field "intro" ms;
      k ← strings_field "key_points" ms;
      o ← string_field "outro" ms;
      t ← string_field "plain_text" ms;
      let s := mkSummary p i k o t in
      if valid s then Some s else None
  | _ => None
  end.

(** Modelled from the spec: Validate, on the parsed output of the backend:
    "field presence, types, and the 4-element invariant on key_points"; the
    paper id is the request's. *)
Definition validate (paper : string) (j : json) : option Summary :=
  match j with
  | JObj ms =>
      i ← string_field "intro" ms;
      k ← strings_field "key_points" ms;
      o ← string_field "outro" ms;
      t ← string_field "plain_text" ms;
      let s := mkSummary paper i k o t in
      if valid s then Some s else None
  | _ => None
  end.

(** Modelled from the spec: a Document of the MetadataStore. *)
Record Document := mkDocument {
  doc_title : string;
  doc_link : string;
  doc_sections : gmap string string;
  doc_illustrations : list string
}.

(** Modelled from the spec: the SummaryCache, one entry per paper id. *)
Abbreviation Cache := (gmap string json).

(** Modelled from the spec: [get] of the SummaryCache; a corrupt entry is a
    miss. *)
Definition cache_get (key : string) (c : Cache) : option Summary :=
  c !! key ≫= deserialize.

(** Modelled from the spec: [put] of the SummaryCache. *)
Definition cache_put (key : string) (s : Summary) (c : Cache) : Cache :=
  <[key := serialize s]> c.

(** Modelled from the spec: the text from the matching closing brace back
    to an opening one, [depth] braces being open. *)
Fixpoint balanced_rest (depth : nat) (s : string) : option string :=
  match s with
  | EmptyString => None
  | String c s' =>
      if decide (c = "{"%char) then String c <$> balanced_rest (S depth) s'
      else if decide (c = "}"%char) then
        match depth with
        | O => Some (String c EmptyString)
        | S d => String c <$> balanced_rest d s'
        end
      else String c <$> balanced_rest depth s'
  end.

(** Modelled from the spec: "locate the first balanced JSON object
    substring". *)
Fixpoint first_balanced_object (s : string) : option string :=
  match s with
  | EmptyString => None
  | String c s' =>
      if decide (c = "{"%char) then
        match balanced_rest 0 s' with
        | Some rest => Some (String c rest)
        | None => first_balanced_object s'
        end
      else first_balanced_object s'
  end.

(** Modelled from the spec: the sections of the prompt, "Abstract, Results,
    Conclusion, then any remaining sections". *)
Definition priority : list string := ["Abstract"; "Results"; "Conclusion"].

(** Modelled from the spec: see [priority]. *)
Definition prompt_sections (d : Document) : list (string * string) :=
  omap (fun n => pair n <$> doc_sections d !! n) priority
  ++ filter (fun e => e.1 ∉ priority) (map_to_list (doc_sections d)).

(** Modelled from the spec: the text of the selected sections, "up to a
    total character budget". *)
Definition prompt_body (budget : nat) (d : Document) : string :=
  substring 0 budget
    (fold_right (fun e acc => e.1 +:+ ": " +:+ e.2 +:+ " " +:+ acc) EmptyString
       (prompt_sections d)).

(** Modelled from the spec: what a deployment of the pipeline fixes: the
    normalization of a paper id, the document storage by normalized id, the
    strict JSON parse, the instructions that open the prompt, the corrective
    instruction of a retry, the character budget and the bound on additional
    attempts. *)
Record Setup := mkSetup {
  normalize : string -> string;
  documents : gmap string Document;
  parse : string -> option json;
  instructions : string;
  corrective : string;
  budget : nat;
  max_retries : nat
}.

(** Modelled from the spec: the generative backend, as the text it returns
    to the i-th call of a request for the prompt sent; [None] when the call
    fails or times out. *)
Definition Backend := nat -> string -> option string.

(** Modelled from the spec: PromptBuild; [None] when no Document or no
    sections are resolvable. *)
Definition build_prompt (cfg : Setup) (key : string) : option string :=
  match documents cfg !! key with
  | Some d =>
      if decide (doc_sections d = ∅) then None
      else Some (instructions cfg +:+ prompt_body (budget cfg) d)
  | None => None
  end.

(** Modelled from the spec: strict parse, then the parse of the first
    balanced object. *)
Definition decode (cfg : Setup) (text : string) : option json :=
  match parse cfg text with
  | Some j => Some j
  | None => first_balanced_object text ≫= parse cfg
  end.

(** Modelled from the spec: GenerateCall and Validate, [n] attempts left,
    [i] made; the result and the prompts sent to the backend. *)
Fixpoint generate (cfg : Setup) (backend : Backend) (n i : nat) (key prompt : string)
  : option Summary * list string :=
  match n with
  | O => (None, [])
  | S n' =>
      let p := if (i =? 0)%nat then prompt else prompt +:+ corrective cfg in
      match (backend i p ≫= decode cfg) ≫= validate key with
      | Some s => (Some s, [p])
      | None => let r := generate cfg backend n' (S i) key prompt in (r.1, p :: r.2)
      end
  end.

(** Modelled from the spec: [getSummary] of the SummarizationPipeline: the
    result, the cache it leaves and the prompts sent to the backend. *)
Definition getSummary (cfg : Setup) (backend : Backend) (paper : string) (c : Cache)
  : (Error + Summary) * Cache * list string :=
  let key := normalize cfg paper in
  match cache_get key c with
  | Some s => (inr s, c, [])
  | None =>
      match build_prompt cfg key with
      | None => (inl SourceUnavailable, c, [])
      | Some prompt =>
          match generate cfg backend (S (max_retries cfg)) 0 key prompt with
          | (Some s, calls) => (inr s, cache_put key s c, calls)
          | (None, calls) => (inl SummarizationFailed, c, calls)
          end
      end
  end.

(** Modelled from the spec: the three parts of what [getSummary] leaves. *)
Definition result_of (o : (Error + Summary) * Cache * list string) : Error + Summary :=
  o.1.1.

(** Modelled from the spec: see [result_of]. *)
Definition cache_of (o : (Error + Summary) * Cache * list string) : Cache := o.1.2.

(** Modelled from the spec: see [result_of]; one prompt per invocation of
    the generative backend. *)
Definition calls_of (o : (Error + Summary) * Cache * list string) : list string := o.2.

(** Modelled from the spec: "no Document/sections are resolvable" for a
    paper id. *)
Definition unresolvable (cfg : Setup) (paper : string) : Prop :=
  match documents cfg !! normalize cfg paper with
  | None => True
  | Some d => doc_sections d = ∅
  end.

(** Modelled from the spec: the caches the pipeline can leave over a fixed
    document storage: the empty one, the one after a request (whatever the
    backend answers), the one after an explicit invalidation. *)
Inductive reachable (cfg : Setup) : Cache -> Prop :=
| reachable_empty : reachable cfg ∅
| reachable_request backend paper c :
    reachable cfg c -> reachable cfg (cache_of (getSummary cfg backend paper c))
| reachable_invalidate key c :
    reachable cfg c -> reachable cfg (delete key c).

End Engine.

(** ** A host for closed examples

    ASCII only: lower case of the letters A to Z, no upper case mapping
    above 127, percent-encoding of the ASCII code units that
    [encodeURIComponent] does not leave as they are. *)
Module Demo.
Import JS.

(** Lower case of an ASCII code unit. *)
Definition ascii_lower (c : char16) : char16 :=
  if (65 <=? c) && (c <=? 90) then c + 32 else c.

(** The upper case hexadecimal digit of [n] below 16. *)
Definition hex_digit (n : N) : char16 := if n <? 10 then 48 + n else 55 + n.

(** [A-Z a-z 0-9 - _ . ! ~ * ' ( )] *)
Definition unreserved (c : char16) : bool :=
  ((65 <=? c) && (c <=? 90)) || ((97 <=? c) && (c <=? 122)) || is_digit c
  || (c =? 45) || (c =? 95) || (c =? 46) || (c =? 33) || (c =? 126)
  || (c =? 42) || (c =? 39) || (c =? 40) || (c =? 41).

(** [encodeURIComponent] on ASCII text; above 127 it gives up. *)
Fixpoint percent_encode (s : jsstring) : jsstring + jsstring :=
  match s with
  | [] => inr []
  | c :: s' =>
      match percent_encode s' with
      | inl e => inl e
      | inr t =>
          if unreserved c then inr (c :: t)
          else if c <? 128 then inr (37 :: hex_digit (c / 16) :: hex_digit (c mod 16) :: t)
          else inl (lit "URI malformed")
      end
  end.

(** The host of the examples. *)
Definition runtime : Runtime := {|
  toLowerCase := map ascii_lower;
  upper16 := fun c => c;
  encodeURIComponent := percent_encode;
  nullPropertyMessage := fun k => lit "Cannot read properties of null (reading '" ++ k ++ lit "')"
|}.

End Demo.

(** ** The vocabulary of the properties of the pages

    What the properties below are stated with: the words of the pattern of
    a PMC id, the shape of a summary, the state a handler leaves by the
    answer of the server, and the data of the closed examples. *)
Module PageSpec.
Import JS Handler SearchPage.

(** A result whose snippet has white space around it. *)
Definition padded_result : SearchResult :=
  mkResult 1 (Some (mkMeta (lit "PMC100") (Some (lit "Bone loss")) (Some (lit "Results")) None))
    (Some (lit "  microgravity reduces bone density ")).

(** A result whose snippet is 401 times the letter a. *)
Definition long_result : SearchResult :=
  mkResult 1 (Some (mkMeta (lit "PMC100") (Some (lit "Bone loss")) (Some (lit "Results")) None))
    (Some (repeat 97 401)).

(** A result that has no snippet. *)
Definition bare_result : SearchResult :=
  mkResult 1 (Some (mkMeta (lit "PMC100") (Some (lit "Bone loss")) (Some (lit "Results")) None))
    None.

(** A word of [/PMC\d+/i]: the letters P, M, C in either case, then one or
    more digits. *)
Definition pmc_word (w : jsstring) : Prop :=
  exists p m c ds,
    w = p :: m :: c :: ds
    /\ (p = 80 \/ p = 112) /\ (m = 77 \/ m = 109) /\ (c = 67 \/ c = 99)
    /\ ds <> [] /\ Forall (fun d => is_digit d = true) ds.

(** No digit follows: the digits of a match are all the digits there. *)
Definition no_digit_ahead (post : jsstring) : Prop :=
  match post with d :: _ => is_digit d = false | [] => True end.

(** A word of the pattern starts at offset [n] of [s]. *)
Definition matches_at (s : jsstring) (n : nat) : Prop :=
  exists w post, drop n s = w ++ post /\ pmc_word w.

(** [w] is the first match in [s]: no word starts before it, and it takes
    all the digits. *)
Definition first_pmc (s w : jsstring) : Prop :=
  exists pre post,
    s = pre ++ w ++ post /\ pmc_word w /\ no_digit_ahead post
    /\ forall n, (n < length pre)%nat -> ~ matches_at s n.

(** The pattern matches nowhere in [s]. *)
Definition no_pmc (s : jsstring) : Prop := forall n, ~ matches_at s n.

(** The members of a summary in the contract. *)
Definition summary_fields : list jsstring :=
  [lit "intro"; lit "key_points"; lit "outro"; lit "plain_text"].

(** [typeof v === "string"] *)
Definition is_string (v : value) : bool :=
  match v with VStr _ => true | _ => false end.

(** An object with exactly the members [intro], [key_points] (an array of
    four strings), [outro] and [plain_text]. *)
Definition summary_shape (v : value) : bool :=
  match v with
  | VObj ms =>
      forallb (fun e => bool_decide (e.1 ∈ summary_fields)) ms
      && is_string (own_member (lit "intro") ms)
      && match own_member (lit "key_points") ms with
         | VArr items => (length items =? 4)%nat && forallb is_string items
         | _ => false
         end
      && is_string (own_member (lit "outro") ms)
      && is_string (own_member (lit "plain_text") ms)
  | _ => false
  end.

(** A summary with exactly the members of the contract. *)
Definition structured_summary : value :=
  VObj [(lit "intro", VStr (lit "Bone density falls in orbit."));
        (lit "key_points",
         VArr [VStr (lit "Mice lose bone mass."); VStr (lit "Loss is load dependent.");
               VStr (lit "Recovery is slow."); VStr (lit "Sample sizes are small.")]);
        (lit "outro", VStr (lit "Countermeasures are needed."));
        (lit "plain_text", VStr (lit "Bones get weaker in space."))].

(** A server that answers every request with status 200 and that body. *)
Definition structured_server : Server :=
  fun _ => inr (mkResponse 200 (inr structured_summary)).

(** A server that answers as the summary block of the page expects. *)
Definition flexible_server : Server :=
  fun _ => inr (mkResponse 200
                  (inr (VObj [(lit "summary", VStr (lit "Bones get weaker in space."))]))).

(** A server that finds nothing. *)
Definition empty_server : Server :=
  fun _ => inr (mkResponse 200 (inr (VObj [(lit "results", VArr [])]))).

(** The search page with a query of white space, after an earlier search
    failed. *)
Definition blank_search : SearchPage.State :=
  SearchPage.mkState (lit "  ") (VArr []) false (Some (lit "API error: 500")) (VNum 0)
    VNull false None false VNull false None 3.

(** The search page with a query typed in. *)
Definition typed_search : SearchPage.State :=
  SearchPage.mkState (lit "bone loss") (VArr []) false None VNull
    VNull false None false VNull false None 1.

(** The QA page with a question typed in. *)
Definition typed_question : QAPage.State :=
  QAPage.mkState (lit "Does bone heal?") VNull false None.

(** The state from which [openPaper] starts its two requests. *)
Definition opening (st : State) : State :=
  setSummaryError None (setSummaryLoading true (setPaperSummary VNull
    (setShowModal true (setSelectedPaper VNull (setPaperError None
      (setPaperLoading true st)))))).

(** The state [loadSummary] leaves when the summary could not be had. *)
Definition summary_failed (msg : jsstring) (st : State) : State :=
  setSummaryLoading false (setPaperSummary VNull (setSummaryError (Some msg) st)).

(** The state [loadPaper] leaves when the paper could not be had. *)
Definition paper_failed (msg : jsstring) (st : State) : State :=
  setPaperLoading false (setPaperError (Some msg) st).

(** The state [loadPaper] leaves and what it logs, by what the server
    answered. *)
Definition paper_outcome (answer : thrown + Response) (st : State)
  : State * list Effect :=
  match answer with
  | inl t => (paper_failed (message_or t (lit "Failed to load paper")) st, [])
  | inr resp =>
      if ok resp then
        match json_body resp with
        | inl t => (paper_failed (message_or t (lit "Failed to load paper")) st, [])
        | inr j => (setPaperLoading false (setSelectedPaper j st),
                    [ConsoleLog (lit "[DEBUG] Paper response:") j])
        end
      else if status resp =? 404
      then (paper_failed (lit "Paper not found on server") st, [])
      else (paper_failed (lit "Paper API error: " ++ of_N (status resp)) st, [])
  end.

(** The trace of the optional event of [handleSearch]. *)
Definition prevented (e : option unit) : list Effect :=
  match e with Some _ => [PreventDefault] | None => [] end.

(** The state of the search page when the request leaves. *)
Definition search_started (st : SearchPage.State) : SearchPage.State :=
  SearchPage.setTotalCount VNull
    (SearchPage.setPage 1 (SearchPage.setError None (SearchPage.setLoading true st))).

(** The state [handleSearch] leaves when the search failed. *)
Definition search_failed (msg : jsstring) (st : SearchPage.State) : SearchPage.State :=
  SearchPage.setLoading false
    (SearchPage.setTotalCount (VNum 0)
       (SearchPage.setResults (VArr []) (SearchPage.setError (Some msg) st))).

(** The state of the QA page when the request leaves. *)
Definition qa_started (st : QAPage.State) : QAPage.State :=
  QAPage.setResponse VNull (QAPage.setError None (QAPage.setLoading true st)).

Section Outcomes.
Context `{Runtime}.

(** The state [loadSummary] leaves, by what the server answered. *)
Definition summary_outcome (answer : thrown + Response) (st : State) : State :=
  match answer with
  | inl t => summary_failed (message_or t (lit "Failed to load summary")) st
  | inr resp =>
      if ok resp then
        match json_body resp with
        | inl t => summary_failed (message_or t (lit "Failed to load summary")) st
        | inr j =>
            match member (lit "summary") j with
            | Some v => setSummaryLoading false (setPaperSummary (or_else v VNull) st)
            | None => summary_failed (nullPropertyMessage (lit "summary")) st
            end
        end
      else if status resp =? 404 then summary_failed (lit "Summary not found") st
      else summary_failed (lit "Summary API error: " ++ of_N (status resp)) st
  end.

(** The state [handleSearch] leaves, by what the server answered. *)
Definition search_outcome (answer : thrown + Response) (st : SearchPage.State)
  : SearchPage.State :=
  match answer with
  | inl t => search_failed (message_or t (lit "Failed to fetch results")) st
  | inr resp =>
      if ok resp then
        match json_body resp with
        | inl t => search_failed (message_or t (lit "Failed to fetch results")) st
        | inr data =>
            match member (lit "results") data with
            | Some found =>
                SearchPage.setLoading false
                  (SearchPage.setTotalCount (length_of (or_else found (VArr [])))
                     (SearchPage.setResults (or_else found (VArr [])) st))
            | None => search_failed (nullPropertyMessage (lit "results")) st
            end
        end
      else search_failed (lit "API error: " ++ of_N (status resp)) st
  end.

End Outcomes.

(** The state [handleSubmit] leaves, by what the server answered. *)
Definition qa_outcome (answer : thrown + Response) (st : QAPage.State) : QAPage.State :=
  match answer with
  | inl t =>
      QAPage.setLoading false
        (QAPage.setError (Some (message_or t (lit "Failed to get answer"))) st)
  | inr resp =>
      if ok resp then
        match json_body resp with
        | inl t =>
            QAPage.setLoading false
              (QAPage.setError (Some (message_or t (lit "Failed to get answer"))) st)
        | inr data => QAPage.setLoading false (QAPage.setResponse data st)
        end
      else
        QAPage.setLoading false
          (QAPage.setError (Some (lit "API error: " ++ of_N (status resp))) st)
  end.

End PageSpec.

(** ** The vocabulary of the properties of the engine *)
Module EngineSpec.
Import Engine.

(** Modelled from the spec: what the engine relies on of the VectorIndex:
    asked for [n] neighbours it returns at most [n], each chunk id once. *)
Definition index_contract {vector : Type}
    (nearest : vector -> nat -> option (list (Z * Q))) : Prop :=
  forall v n hits, nearest v n = Some hits -> (length hits <= n)%nat /\ NoDup hits.*1.

(** Modelled from the spec: every key of the cache has a Document with
    sections, as PromptBuild requires before a Summary is made. *)
Definition cache_sound (cfg : Setup) (c : Cache) : Prop :=
  forall key j, c !! key = Some j -> build_prompt cfg key <> None.

(** Modelled from the spec: the scenario of the contract: chunks of PMC100
    at distance 0.1 and of PMC200 at distance 0.4, and a second chunk of
    PMC100 at distance 0.1. *)
Definition demo_chunks : gmap Z Chunk :=
  list_to_map
    [(7%Z, mkChunk "PMC100" "Bone loss in mice" "Results" "Density fell by ten percent.");
     (3%Z, mkChunk "PMC200" "Plant growth" "Abstract" "Roots grow without gravity.");
     (5%Z, mkChunk "PMC100" "Bone loss in mice" "Abstract" "")].

(** Modelled from the spec: a VectorIndex over four chunks, one of them
    without metadata; it returns the first [n] of its neighbours. *)
Definition demo_nearest (v : unit) (n : nat) : option (list (Z * Q)) :=
  Some (take n [(3%Z, 4 # 10); (7%Z, 1 # 10); (5%Z, 1 # 10); (9%Z, 2 # 10)]).

(** Modelled from the spec: [score = 1 / (1 + distance)]. *)
Definition demo_score (d : Q) : Q := (1 / (1 + d))%Q.

(** An answer of the backend as the contract asks for it, parsed. *)
Definition good_json : json :=
  JObj [("intro", JStr "Bone density falls in orbit.");
        ("key_points", JArr [JStr "Mice lose bone mass."; JStr "Loss is load dependent.";
                             JStr "Recovery is slow."; JStr "Sample sizes are small."]);
        ("outro", JStr "Countermeasures are needed.");
        ("plain_text", JStr "Bones get weaker in space.")].

(** The same object with three key points. *)
Definition short_json : json :=
  JObj [("intro", JStr "Bone density falls in orbit.");
        ("key_points", JArr [JStr "Mice lose bone mass."; JStr "Loss is load dependent.";
                             JStr "Recovery is slow."]);
        ("outro", JStr "Countermeasures are needed.");
        ("plain_text", JStr "Bones get weaker in space.")].

(** A strict parse that knows two texts. *)
Definition demo_parse (text : string) : option json :=
  if decide (text = "{good}") then Some good_json
  else if decide (text = "{short}") then Some short_json
  else None.

(** Modelled from the spec: a deployment with PMC100 stored with two
    sections, PMC300 stored without sections, and two additional
    attempts. *)
Definition demo_setup : Setup :=
  mkSetup (fun id => id)
    (list_to_map
       [("PMC100",
         mkDocument "Bone loss in mice" "https://www.ncbi.nlm.nih.gov/pmc/articles/PMC100/"
           (list_to_map [("Results", "Density fell."); ("Abstract", "Mice lose bone.")]) []);
        ("PMC300", mkDocument "No text" "#" ∅ [])])
    demo_parse "Summarize: " " Answer with JSON only." 1000 2.

(** Modelled from the spec: a backend that first returns three key points,
    then the object wrapped in prose. *)
Definition demo_backend : Backend :=
  fun i _ => if (i =? 0)%nat then Some "{short}" else Some "Sure! {good} Done.".

(** The Summary of [good_json] for PMC100. *)
Definition good_summary : Summary :=
  mkSummary "PMC100" "Bone density falls in orbit."
    ["Mice lose bone mass."; "Loss is load dependent."; "Recovery is slow.";
     "Sample sizes are small."]
    "Countermeasures are needed." "Bones get weaker in space.".

End EngineSpec.

(** ** The rest of the search page: pages, the modal, the link, the summary *)
Module SearchPageView.
Import JS Handler SearchPage.

(** *** Pages

    Counts and page numbers are integers: lengths of arrays and what
    [Math.max], [Math.min], [+ 1] and [- 1] make of them; on these the
    division of doubles followed by [Math.ceil] is the exact quotient
    rounded up. *)

(** [const PAGE_SIZE = 6] *)
Definition PAGE_SIZE : Z := 6.

(** [Math.ceil(n / d)] for integers [n] and [d > 0]. *)
Definition ceil_div (n d : Z) : Z := (- ((- n) / d))%Z.

(** [Math.max(1, Math.ceil((totalCount ?? results.length) / PAGE_SIZE))];
    [totalCount] is [None] when it is [null]. *)
Definition pages (totalCount : option Z) (results_length : Z) : Z :=
  Z.max 1 (ceil_div (default results_length totalCount) PAGE_SIZE).

(** The click on Prev: [setPage(p => Math.max(1, p - 1))]. *)
Definition prevPage (p : Z) : Z := Z.max 1 (p - 1).

(** The click on Next: [setPage(p => Math.min(pages, p + 1))]. *)
Definition nextPage (pages p : Z) : Z := Z.min pages (p + 1).

(** [l.slice(start, stop)] for integer arguments: a negative index counts
    from the end, and both are clamped to the array. *)
Definition slice {A} (start stop : Z) (l : list A) : list A :=
  let len := Z.of_nat (length l) in
  let k := if (start <? 0)%Z then Z.max (len + start) 0 else Z.min start len in
  let final := if (stop <? 0)%Z then Z.max (len + stop) 0 else Z.min stop len in
  take (Z.to_nat (final - k)) (drop (Z.to_nat k) l).

(** [visibleResults]: [results.slice(start, start + PAGE_SIZE)] with
    [start = (page - 1) * PAGE_SIZE]. *)
Definition visibleResults {A} (results : list A) (page : Z) : list A :=
  slice ((page - 1) * PAGE_SIZE) ((page - 1) * PAGE_SIZE + PAGE_SIZE) results.

(** The pages [1] to [n], in order. *)
Definition page_numbers (n : nat) : list Z := map (fun i => Z.of_nat (S i)) (seq 0 n).

(** *** The modal *)

(** [closeModal] *)
Definition closeModal : Eff State unit :=
  update (setShowModal false);;
  update (setSelectedPaper VNull);;
  update (setPaperError None).

(** *** The link to the clipboard *)

(** What [copyLink] does to the outside. *)
Inductive UiEffect :=
| ClipboardWrite (text : jsstring)
| Alert (message : jsstring).

(** [navigator.clipboard.writeText]: it resolves or rejects. *)
Definition Clipboard := jsstring -> thrown + unit.

(** [copyLink(paperId?)]: the effects, in order; a write that rejects is on
    the trace as the attempt it was. *)
Definition copyLink `{Runtime} (clipboard : Clipboard) (paperId : option jsstring)
  : list UiEffect :=
  let url := getPaperLink paperId in
  if negb (truthy_string url) || (if decide (url = lit "#") then true else false)
  then [Alert (lit "Unable to copy link.")]
  else
    match clipboard url with
    | inr _ => [ClipboardWrite url; Alert (lit "Copied original article link to clipboard.")]
    | inl _ => [ClipboardWrite url; Alert (lit "Unable to copy link.")]
    end.

(** *** The paragraphs of the summary *)

(** [paperSummary.split(/\n|(?<=\.)\s+/)]: a line feed separates, and so
    does a run of white space that follows a period.  [cur] is the piece
    being read, reversed; [after_dot] says that the code unit before is a
    period; [in_run] says that a run of white space after a period is being
    passed. *)
Fixpoint paragraphs_from (cur : jsstring) (after_dot in_run : bool) (s : jsstring)
  : list jsstring :=
  match s with
  | [] => [rev cur]
  | c :: s' =>
      if in_run && is_white_space c then paragraphs_from cur false true s'
      else if c =? 10 then rev cur :: paragraphs_from [] false false s'
      else if after_dot && is_white_space c then rev cur :: paragraphs_from [] false true s'
      else paragraphs_from (c :: cur) (c =? 46) false s'
  end.

(** The paragraphs the summary block renders. *)
Definition paragraphs (summary : jsstring) : list jsstring :=
  paragraphs_from [] false false summary.

End SearchPageView.

(** ** [frontend/src/api.js] *)
Module Api.
Import JS Handler.

Section Helpers.
Context `{Runtime} (server : Server).

(** What the three helpers do with a response: [if (!resp.ok) throw new
    Error(`<name> error ${resp.status}`); return resp.json()]. *)
Definition body_or_throw (name : jsstring) (resp : Response) : Eff unit value :=
  if negb (ok resp)
  then throw (ThrownError (name ++ lit " error " ++ of_N (status resp)))
  else json resp.

(** [searchQuery(query, k = 5)]; [k] is a count. *)
Definition searchQuery (query : jsstring) (k : option N) : Eff unit value :=
  q ← call (encodeURIComponent query);
  resp ← fetch server
           (plain_get (lit "/search?q=" ++ q ++ lit "&k=" ++ of_N (default 5 k)));
  body_or_throw (lit "Search") resp.

(** [qaQuery(question, k = 10)] *)
Definition qaQuery (question : jsstring) (k : option N) : Eff unit value :=
  q ← call (encodeURIComponent question);
  resp ← fetch server
           (plain_get (lit "/qa?q=" ++ q ++ lit "&k=" ++ of_N (default 10 k)));
  body_or_throw (lit "QA") resp.

(** [healthCheck()] *)
Definition healthCheck : Eff unit value :=
  resp ← fetch server (plain_get (lit "/health"));
  body_or_throw (lit "Health") resp.

End Helpers.

End Api.

(** ** The paper page ([Paper]) *)
Module PaperPage.
Import JS Handler.

(** [`${paperId}`] for the route parameter, which may be missing. *)
Definition shown (paperId : option jsstring) : jsstring :=
  match paperId with Some id => id | None => lit "undefined" end.

(** The effect of [Paper]: [fetch(`/paper/${paperId}`).then(res =>
    res.json()).then(data => setPaper(data))].  The state is the cell
    [paper]; a rejection is handled by no one and ends the chain. *)
Definition loadPaper (server : Server) (paperId : option jsstring) : Eff value unit :=
  res ← fetch server (plain_get (lit "/paper/" ++ shown paperId));
  data ← json res;
  update (fun _ => data).

(** [if (!paper) return <div>Loading...</div>] *)
Definition shows_loading (paper : value) : bool := negb (truthy paper).

End PaperPage.

(** ** The vocabulary of the further properties *)
Module ViewSpec.
Import JS Handler SearchPage SearchPageView PageSpec.

(** [out] is [text] with pieces of it wrapped in [<mark>] and [</mark>],
    each piece what a token of [tokens] matches where it stands; nothing
    else is added, nothing is dropped or changed. *)
Inductive marked_by `{Runtime} (tokens : list jsstring) : jsstring -> jsstring -> Prop :=
| marked_nil : marked_by tokens [] []
| marked_copy c text out :
    marked_by tokens text out -> marked_by tokens (c :: text) (c :: out)
| marked_wrap tok m text out :
    tok ∈ tokens -> match_token tok (m ++ text) = Some m ->
    marked_by tokens text out -> marked_by tokens (m ++ text) (mark m ++ out).

(** The tokens [highlightText] makes of a query. *)
Definition tokens_of `{Runtime} (query : jsstring) : list jsstring :=
  unique (split_ws (toLowerCase (trim query))).

(** No code unit of [s] is a line feed. *)
Definition no_line_feed (s : jsstring) : Prop := Forall (fun c => c <> 10) s.

(** No period of [s] is followed by white space. *)
Fixpoint no_dot_space (s : jsstring) : Prop :=
  match s with
  | c :: (d :: _) as s' => ~ (c = 46 /\ is_white_space d = true) /\ no_dot_space s'
  | _ => True
  end.

(** The code units of [s] that are not white space. *)
Definition ink (s : list char16) : list char16 :=
  filter (fun c => is_white_space c = false) s.

(** A summary of three sentences over two lines. *)
Definition sample_summary : jsstring :=
  lit "Bones weaken.  Mice show it. " ++ [10] ++ lit "More data is needed.".

(** A clipboard that takes every text, and one that refuses every text. *)
Definition open_clipboard : Clipboard := fun _ => inr tt.

(** See [open_clipboard]. *)
Definition closed_clipboard : Clipboard := fun _ => inl (ThrownError (lit "NotAllowedError")).

(** A server that knows no paper: status 404 with a body that says so. *)
Definition missing_server : Server :=
  fun _ => inr (mkResponse 404 (inr (VObj [(lit "detail", VStr (lit "Paper not found"))]))).

(** A server that cannot be reached. *)
Definition down_server : Server := fun _ => inl (ThrownError (lit "Failed to fetch")).

(** A server that answers a search with two results. *)
Definition two_results_server : Server :=
  fun _ => inr (mkResponse 200
                  (inr (VObj [(lit "results",
                               VArr [VObj [(lit "score", VNum 1)];
                                     VObj [(lit "score", VNum 0.5)]])]))).

(** No code unit of [s] is white space. *)
Definition no_white_space (s : jsstring) : Prop :=
  Forall (fun c => is_white_space c = false) s.

(** [text] with an empty mark before each code unit and one at the end. *)
Definition empty_marks (text : jsstring) : jsstring :=
  concat (map (fun c => mark [] ++ [c]) text) ++ mark [].

(** The alerts among the effects of [copyLink]. *)
Definition alerts (es : list UiEffect) : list jsstring :=
  omap (fun e => match e with Alert m => Some m | ClipboardWrite _ => None end) es.

(** Two states of the search page hold the same search: query, results,
    flags, count and page; what the modal holds may differ. *)
Definition same_search (a b : State) : Prop :=
  query a = query b /\ results a = results b /\ loading a = loading b
  /\ error a = error b /\ totalCount a = totalCount b /\ page a = page b.

(** The address [searchQuery] asks. *)
Definition api_search_url (q : jsstring) (k : option N) : jsstring :=
  lit "/search?q=" ++ q ++ lit "&k=" ++ of_N (default 5 k).

(** The address [qaQuery] asks. *)
Definition api_qa_url (q : jsstring) (k : option N) : jsstring :=
  lit "/qa?q=" ++ q ++ lit "&k=" ++ of_N (default 10 k).

(** A response was received, it is OK and its body parses to [v]. *)
Definition answers_ok (server : Server) (r : Request) (v : value) : Prop :=
  exists resp, server r = inr resp /\ ok resp = true /\ json_body resp = inr v.

End ViewSpec.

(* ===================================================================== *)
(** * Part II. Properties *)
(* ===================================================================== *)

(** ** Strings *)
Module JSFacts.
Import JS.

Lemma trim_nil : trim [] = [].
Proof. reflexivity. Qed.

Lemma truthy_string_true (s : jsstring) : truthy_string s = true <-> s <> [].
Proof. destruct s; simpl; split; congruence. Qed.

Lemma trim_nonempty_source (s : jsstring) : trim s <> [] -> s <> [].
Proof. intros Ht ->. now apply Ht. Qed.

Lemma length_lit_dots : length (lit "...") = 3%nat.
Proof. reflexivity. Qed.

End JSFacts.

(** ** The search page *)
Module SearchPageFacts.
Import JS Handler SearchPage PageSpec JSFacts.

(** *** [renderSnippet] *)

Lemma renderSnippet_some (r : SearchResult) (sn : jsstring) :
  snippet r = Some sn -> trim sn <> [] ->
  renderSnippet r =
    if (400 <? length (trim sn))%nat then take 400 (trim sn) ++ lit "..." else trim sn.
Proof.
  intros Hs Ht. unfold renderSnippet. rewrite Hs.
  assert (truthy_string sn = true) as ->
    by (apply truthy_string_true; now apply trim_nonempty_source).
  assert ((0 <? length (trim sn))%nat = true) as ->.
  { apply Nat.ltb_lt. destruct (trim sn); [congruence | simpl; lia]. }
  reflexivity.
Qed.

Lemma renderSnippet_blank (r : SearchResult) :
  match snippet r with Some sn => trim sn = [] | None => True end ->
  renderSnippet r = title_of r ++ section_suffix r.
Proof.
  unfold renderSnippet. destruct (snippet r) as [sn|]; [|reflexivity].
  intros ->. simpl. now rewrite andb_false_r.
Qed.

(** C10: when the trimmed snippet of a result is not empty, [renderSnippet]
    returns it as it is when it has at most 400 code units, and otherwise
    its first 400 code units followed by three dots; what it returns is
    never longer than 403. *)
Theorem renderSnippet_truncates (r : SearchResult) (sn : jsstring) :
  snippet r = Some sn ->
  trim sn <> [] ->
  ((length (trim sn) <= 400)%nat -> renderSnippet r = trim sn)
  /\ ((400 < length (trim sn))%nat ->
      renderSnippet r = take 400 (trim sn) ++ lit "..."
      /\ length (take 400 (trim sn)) = 400%nat)
  /\ (length (renderSnippet r) <= 403)%nat.
Proof.
  intros Hs Ht. rewrite (renderSnippet_some r sn Hs Ht).
  destruct (400 <? length (trim sn))%nat eqn:E.
  - apply Nat.ltb_lt in E. repeat split.
    + lia.
    + rewrite length_take. lia.
    + rewrite length_app, length_take, length_lit_dots. lia.
  - apply Nat.ltb_ge in E. repeat split; try lia.
Qed.

Lemma renderSnippet_truncates_witness :
  renderSnippet padded_result = lit "microgravity reduces bone density"
  /\ (length (renderSnippet padded_result) <= 403)%nat.
Proof.
  destruct (renderSnippet_truncates padded_result
              (lit "  microgravity reduces bone density ")) as (Hshort & _ & Hlen).
  - reflexivity.
  - discriminate.
  - split; [apply Hshort; vm_compute; lia | exact Hlen].
Defined.

(** C2, as stated, fails: a snippet that is not empty, and has no white
    space to trim, is not used as it is when it is longer than 400 code
    units. *)
Lemma renderSnippet_long_snippet_is_cut :
  snippet long_result = Some (repeat 97 401)
  /\ trim (repeat 97 401) = repeat 97 401
  /\ renderSnippet long_result = repeat 97 400 ++ lit "..."
  /\ renderSnippet long_result <> repeat 97 401.
Proof.
  repeat split; try (vm_compute; reflexivity).
  intros E. apply (f_equal length) in E. vm_compute in E. discriminate.
Qed.

(** C2, amended: a result whose snippet is absent or empty after trimming
    is rendered as its title (Untitled when it has none), followed by the
    section in parentheses when the section is present and not empty; a
    result whose trimmed snippet is not empty is rendered as the trimmed
    snippet, cut to its first 400 code units and three dots when it is
    longer. *)
Theorem renderSnippet_label_or_snippet (r : SearchResult) :
  (match snippet r with Some sn => trim sn = [] | None => True end ->
   renderSnippet r = title_of r ++ section_suffix r)
  /\ (forall sn, snippet r = Some sn -> trim sn <> [] ->
      renderSnippet r =
        if (400 <? length (trim sn))%nat then take 400 (trim sn) ++ lit "..."
        else trim sn)
  /\ (forall m t, meta r = Some m -> title m = Some t -> title_of r = t)
  /\ (meta r = None \/ (exists m, meta r = Some m /\ title m = None) ->
      title_of r = lit "Untitled")
  /\ (forall m sec, meta r = Some m -> section m = Some sec -> sec <> [] ->
      section_suffix r = lit " (" ++ sec ++ lit ")")
  /\ (meta r = None
      \/ (exists m, meta r = Some m /\ (section m = None \/ section m = Some [])) ->
      section_suffix r = []).
Proof.
  split; [apply renderSnippet_blank|].
  split; [intros sn; apply renderSnippet_some|].
  unfold title_of, section_suffix.
  split; [now intros m t -> ->|].
  split; [now intros [->|(m & -> & ->)]|].
  split.
  - intros m sec -> -> Hsec. destruct sec; [congruence | reflexivity].
  - now intros [->|(m & -> & [->| ->])].
Qed.

Lemma renderSnippet_label_or_snippet_witness :
  renderSnippet bare_result = lit "Bone loss (Results)"
  /\ renderSnippet padded_result = lit "microgravity reduces bone density".
Proof.
  split.
  - destruct (renderSnippet_label_or_snippet bare_result) as (Hblank & _).
    rewrite Hblank; [reflexivity | exact I].
  - destruct (renderSnippet_label_or_snippet padded_result) as (_ & Hsome & _).
    rewrite (Hsome (lit "  microgravity reduces bone density ")); [reflexivity .. | discriminate].
Defined.

(** *** [highlightText] *)

(** C9: [highlightText] returns the text unchanged when the text or the
    query is empty. *)
Theorem highlightText_empty `{Runtime} (text query : jsstring) :
  text = [] \/ query = [] -> highlightText text query = text.
Proof.
  unfold highlightText. intros [-> | ->]; simpl; [reflexivity|].
  now rewrite orb_true_r.
Qed.

Lemma highlightText_empty_witness :
  highlightText (H := Demo.runtime) [] (lit "bone") = []
  /\ highlightText (H := Demo.runtime) (lit "Bone loss") [] = lit "Bone loss".
Proof.
  split; apply (highlightText_empty (H := Demo.runtime)); [now left | now right].
Defined.

(** The function at work: tokens match whatever their case; a query of
    white space alone marks the empty match before each code unit and at
    the end. *)
Example highlightText_marks :
  highlightText (H := Demo.runtime) (lit "Bone loss in mice") (lit " loss  BONE ")
  = lit "<mark>Bone</mark> <mark>loss</mark> in mice".
Proof. vm_compute. reflexivity. Qed.

Example highlightText_blank_query :
  highlightText (H := Demo.runtime) (lit "ab") (lit " ")
  = lit "<mark></mark>a<mark></mark>b<mark></mark>".
Proof. vm_compute. reflexivity. Qed.

(** *** The PMC id of a paper id *)

Lemma is_digit_true (c : char16) : is_digit c = true <-> 48 <= c <= 57.
Proof. unfold is_digit. rewrite andb_true_iff, !N.leb_le. tauto. Qed.

Section Pmc.
Context `{Runtime}.

Lemma is_letter_spec (l c : char16) :
  65 <= l <= 90 -> is_letter l c = true <-> (c = l \/ c = l + 32).
Proof.
  intros Hl. unfold is_letter, canonicalize, ascii_upper.
  destruct (l <? 128) eqn:El; [|apply N.ltb_ge in El; lia].
  destruct ((97 <=? l) && (l <=? 122)) eqn:E1.
  { apply andb_true_iff in E1 as [E1 _]. apply N.leb_le in E1. lia. }
  clear El E1.
  destruct (c <? 128) eqn:Ec; [apply N.ltb_lt in Ec | apply N.ltb_ge in Ec].
  - destruct (97 <=? c) eqn:E2; [apply N.leb_le in E2 | apply N.leb_gt in E2];
      (destruct (c <=? 122) eqn:E3; [apply N.leb_le in E3 | apply N.leb_gt in E3]);
      simpl; destruct (decide _) as [E|E]; split; intros; try congruence; try lia.
  - destruct (upper16 c <? 128) eqn:Eu;
      [apply N.ltb_lt in Eu | apply N.ltb_ge in Eu];
      destruct (decide _) as [E|E]; split; intros; try congruence; try lia.
Qed.

Lemma digits_prefix_split (s : jsstring) :
  exists post,
    s = digits_prefix s ++ post
    /\ Forall (fun d => is_digit d = true) (digits_prefix s)
    /\ no_digit_ahead post.
Proof.
  induction s as [|c s (post & E & Hd & Hp)]; simpl.
  - exists []. repeat split. constructor.
  - destruct (is_digit c) eqn:Ec.
    + exists post. repeat split; [simpl; congruence | now constructor | exact Hp].
    + exists (c :: s). repeat split; [constructor | exact Ec].
Qed.

Lemma digits_prefix_app (ds post : jsstring) :
  Forall (fun d => is_digit d = true) ds -> no_digit_ahead post ->
  digits_prefix (ds ++ post) = ds.
Proof.
  intros Hd Hp. induction Hd as [|d ds Hd _ IH]; simpl.
  - destruct post as [|c post]; simpl in *; [reflexivity | now rewrite Hp].
  - now rewrite Hd, IH.
Qed.

Lemma pmc_here_sound (s w : jsstring) :
  pmc_here s = Some w ->
  exists post, s = w ++ post /\ pmc_word w /\ no_digit_ahead post.
Proof.
  unfold pmc_here.
  destruct s as [|p [|m [|c [|d rest]]]]; try discriminate.
  destruct (is_letter 80 p) eqn:Ep; [|discriminate].
  destruct (is_letter 77 m) eqn:Em; [|discriminate].
  destruct (is_letter 67 c) eqn:Ec; [|discriminate].
  destruct (is_digit d) eqn:Ed; [|discriminate].
  simpl. intros [= <-].
  apply is_letter_spec in Ep, Em, Ec; try lia.
  destruct (digits_prefix_split rest) as (post & E & Hd & Hp).
  exists post. split; [simpl; congruence|]. split; [|exact Hp].
  exists p, m, c, (d :: digits_prefix rest).
  repeat split; try assumption; try discriminate. now constructor.
Qed.

Lemma pmc_here_complete (w post : jsstring) :
  pmc_word w -> no_digit_ahead post -> pmc_here (w ++ post) = Some w.
Proof.
  intros (p & m & c & ds & -> & Hp & Hm & Hc & Hne & Hd) Hpost.
  destruct ds as [|d ds]; [congruence|]. inversion Hd as [|? ? Hd1 Hd2]; subst.
  unfold pmc_here. simpl.
  assert (is_letter 80 p = true) as -> by (apply is_letter_spec; lia).
  assert (is_letter 77 m = true) as -> by (apply is_letter_spec; lia).
  assert (is_letter 67 c = true) as -> by (apply is_letter_spec; lia).
  rewrite Hd1. simpl. now rewrite digits_prefix_app.
Qed.

Lemma pmc_here_none (s : jsstring) : pmc_here s = None -> ~ matches_at s 0.
Proof.
  intros E (w & post & Hs & (p & m & c & ds & -> & Hp & Hm & Hc & Hne & Hd)).
  rewrite drop_0 in Hs. subst s.
  destruct ds as [|d ds]; [congruence|]. inversion Hd as [|? ? Hd1 Hd2]; subst.
  unfold pmc_here in E. simpl in E.
  assert (is_letter 80 p = true) as Ep by (apply is_letter_spec; lia).
  assert (is_letter 77 m = true) as Em by (apply is_letter_spec; lia).
  assert (is_letter 67 c = true) as Ec by (apply is_letter_spec; lia).
  rewrite Ep, Em, Ec, Hd1 in E. discriminate.
Qed.

Lemma matches_at_cons (x : char16) (s : jsstring) (n : nat) :
  matches_at (x :: s) (S n) <-> matches_at s n.
Proof. reflexivity. Qed.

Lemma match_pmc_some (s w : jsstring) : match_pmc s = Some w -> first_pmc s w.
Proof.
  induction s as [|x s IH]; cbn [match_pmc].
  - discriminate.
  - destruct (pmc_here (x :: s)) as [w'|] eqn:E.
    + intros [= ->]. destruct (pmc_here_sound _ _ E) as (post & Hs & Hw & Hp).
      exists [], post. repeat split; try assumption. simpl. intros n Hn. lia.
    + intros Hm. destruct (IH Hm) as (pre & post & Hs & Hw & Hp & Hfirst).
      exists (x :: pre), post. repeat split; try assumption.
      * simpl. congruence.
      * intros [|n] Hn; [now apply pmc_here_none|].
        rewrite matches_at_cons. apply Hfirst. simpl in Hn. lia.
Qed.

Lemma match_pmc_none (s : jsstring) : match_pmc s = None -> no_pmc s.
Proof.
  induction s as [|x s IH]; cbn [match_pmc].
  - intros _ n (w & post & Hs & (p & m & c & ds & -> & _)).
    rewrite drop_nil in Hs. discriminate.
  - destruct (pmc_here (x :: s)) eqn:E; [discriminate|].
    intros Hm [|n]; [now apply pmc_here_none|].
    rewrite matches_at_cons. now apply IH.
Qed.

Lemma match_pmc_unfold (s : jsstring) :
  match_pmc s =
    match pmc_here s with
    | Some m => Some m
    | None => match s with [] => None | _ :: s' => match_pmc s' end
    end.
Proof. destruct s; reflexivity. Qed.

Lemma first_pmc_match (s w : jsstring) : first_pmc s w -> match_pmc s = Some w.
Proof.
  intros (pre & post & -> & Hw & Hp & Hfirst).
  induction pre as [|x pre IH].
  - rewrite match_pmc_unfold. cbn [app].
    now rewrite (pmc_here_complete w post Hw Hp).
  - rewrite match_pmc_unfold.
    change ((x :: pre) ++ w ++ post) with (x :: (pre ++ w ++ post)) in *.
    destruct (pmc_here (x :: pre ++ w ++ post)) as [w'|] eqn:E.
    + exfalso. apply (Hfirst 0%nat); [simpl; lia|].
      destruct (pmc_here_sound _ _ E) as (post' & Hs & Hw' & _).
      exists w', post'. now rewrite drop_0.
    + apply IH. intros n Hn. rewrite <- (matches_at_cons x).
      apply Hfirst. simpl. lia.
Qed.

Lemma no_pmc_match (s : jsstring) : no_pmc s -> match_pmc s = None.
Proof.
  intros Hno. destruct (match_pmc s) as [w|] eqn:E; [|reflexivity].
  destruct (match_pmc_some _ _ E) as (pre & post & -> & Hw & _).
  exfalso. apply (Hno (length pre)). exists w, post.
  now rewrite drop_app_length.
Qed.

Lemma getPaperLink_match (id : jsstring) :
  getPaperLink (Some id) =
    match match_pmc id with
    | Some m => lit "https://www.ncbi.nlm.nih.gov/pmc/articles/" ++ m ++ lit "/"
    | None => lit "#"
    end.
Proof. destruct id; reflexivity. Qed.

(** X1: the id of [openPaper] is stable: cleaning a cleaned id changes
    nothing. *)
Theorem cleanId_idempotent (paperId : jsstring) :
  cleanId (cleanId paperId) = cleanId paperId.
Proof.
  unfold cleanId at 2 3. destruct (match_pmc paperId) as [w|] eqn:E.
  - apply match_pmc_some in E as (pre & post & _ & Hw & _).
    unfold cleanId. rewrite match_pmc_unfold.
    rewrite <- (app_nil_r w) at 1.
    now rewrite (pmc_here_complete w [] Hw I).
  - unfold cleanId. now rewrite E.
Qed.

End Pmc.

(** *** The handlers *)

Section HandlerFacts.
Context `{Runtime} (server : Server).

Lemma loadSummary_run (id enc : jsstring) (st : State) (tr : list Effect) :
  encodeURIComponent id = inr enc ->
  loadSummary server id (st, tr) =
    (inr tt, (summary_outcome (server (plain_get (summary_url enc))) st,
              tr ++ [Fetch (plain_get (summary_url enc))])).
Proof.
  intros Henc. unfold loadSummary, summary_outcome, summary_failed.
  run_handler. rewrite Henc. cbn [fst snd].
  destruct (server (plain_get (summary_url enc))) as [t|resp]; [reflexivity|].
  destruct (ok resp); cbn [negb fst snd].
  - destruct (json_body resp) as [t|j]; [reflexivity|].
    destruct (member (lit "summary") j); reflexivity.
  - destruct (status resp =? 404); reflexivity.
Qed.

Lemma loadPaper_run (id enc : jsstring) (st : State) (tr : list Effect) :
  encodeURIComponent id = inr enc ->
  loadPaper server id (st, tr) =
    (inr tt, ((paper_outcome (server (plain_get (paper_url enc))) st).1,
              (tr ++ [Fetch (plain_get (paper_url enc))])
              ++ (paper_outcome (server (plain_get (paper_url enc))) st).2)).
Proof.
  intros Henc. unfold loadPaper, paper_outcome, paper_failed.
  run_handler. rewrite Henc. cbn [fst snd].
  destruct (server (plain_get (paper_url enc))) as [t|resp];
    [now rewrite app_nil_r|].
  destruct (ok resp); cbn [negb fst snd].
  - destruct (json_body resp) as [t|j]; [now rewrite app_nil_r | reflexivity].
  - destruct (status resp =? 404); now rewrite app_nil_r.
Qed.

Lemma paper_outcome_logs (answer : thrown + Response) (st : State) :
  requests (paper_outcome answer st).2 = [].
Proof.
  unfold paper_outcome. destruct answer as [t|resp]; [reflexivity|].
  destruct (ok resp); [destruct (json_body resp); reflexivity|].
  destruct (status resp =? 404); reflexivity.
Qed.

(** What [loadPaper] leaves of the summary fields. *)
Lemma paper_outcome_summary (answer : thrown + Response) (st : State) :
  paperSummary (paper_outcome answer st).1 = paperSummary st
  /\ summaryError (paper_outcome answer st).1 = summaryError st.
Proof.
  unfold paper_outcome. destruct answer as [t|resp]; [now split|].
  destruct (ok resp); [destruct (json_body resp); now split|].
  destruct (status resp =? 404); now split.
Qed.

Lemma openPaper_unencodable (paperId msg : jsstring) (st : State) :
  encodeURIComponent (cleanId paperId) = inl msg ->
  run (openPaper server paperId) st =
    (inr tt, (summary_failed msg (paper_failed msg (opening st)), [])).
Proof.
  intros Henc. unfold run, openPaper, loadPaper, loadSummary.
  run_handler. rewrite Henc. reflexivity.
Qed.

Lemma openPaper_run (paperId enc : jsstring) (st : State) :
  encodeURIComponent (cleanId paperId) = inr enc ->
  run (openPaper server paperId) st =
    (inr tt,
     (summary_outcome (server (plain_get (summary_url enc)))
        (paper_outcome (server (plain_get (paper_url enc))) (opening st)).1,
      ([Fetch (plain_get (paper_url enc))]
       ++ (paper_outcome (server (plain_get (paper_url enc))) (opening st)).2)
      ++ [Fetch (plain_get (summary_url enc))])).
Proof.
  intros Henc. unfold run, openPaper.
  unfold mbind, eff_bind, bind at 1 2 3 4 5 6 7 8.
  unfold update at 1 2 3 4 5 6 7. cbn [fst snd].
  rewrite (loadPaper_run _ enc _ _ Henc).
  rewrite (loadSummary_run _ enc _ _ Henc). reflexivity.
Qed.

Lemma loadPaper_done (id : jsstring) (w : State * list Effect) :
  exists st' tr',
    loadPaper server id w = (inr tt, (st', tr'))
    /\ paperLoading st' = false
    /\ showModal st' = showModal w.1
    /\ summaryLoading st' = summaryLoading w.1.
Proof.
  destruct w as [st tr]. unfold loadPaper. run_handler.
  destruct (encodeURIComponent id) as [msg|enc]; cbn [fst snd];
    [eexists _, _; split; [reflexivity | now repeat split]|].
  destruct (server (plain_get (paper_url enc))) as [t|resp];
    [eexists _, _; split; [reflexivity | now repeat split]|].
  destruct (ok resp); cbn [negb fst snd].
  - destruct (json_body resp) as [t|j];
      eexists _, _; (split; [reflexivity | now repeat split]).
  - destruct (status resp =? 404);
      eexists _, _; (split; [reflexivity | now repeat split]).
Qed.

Lemma loadSummary_done (id : jsstring) (w : State * list Effect) :
  exists st' tr',
    loadSummary server id w = (inr tt, (st', tr'))
    /\ summaryLoading st' = false
    /\ showModal st' = showModal w.1
    /\ paperLoading st' = paperLoading w.1.
Proof.
  destruct w as [st tr]. unfold loadSummary. run_handler.
  destruct (encodeURIComponent id) as [msg|enc]; cbn [fst snd];
    [eexists _, _; split; [reflexivity | now repeat split]|].
  destruct (server (plain_get (summary_url enc))) as [t|resp];
    [eexists _, _; split; [reflexivity | now repeat split]|].
  destruct (ok resp); cbn [negb fst snd].
  - destruct (json_body resp) as [t|j];
      [eexists _, _; split; [reflexivity | now repeat split]|].
    destruct (member (lit "summary") j);
      eexists _, _; (split; [reflexivity | now repeat split]).
  - destruct (status resp =? 404);
      eexists _, _; (split; [reflexivity | now repeat split]).
Qed.

(** X2: whatever the server answers, and whether or not the id can be
    encoded, [openPaper] throws nothing and ends with the modal shown and
    both loading flags cleared. *)
Theorem openPaper_completes (paperId : jsstring) (st : State) :
  (run (openPaper server paperId) st).1 = inr tt
  /\ showModal (final_state (openPaper server paperId) st) = true
  /\ paperLoading (final_state (openPaper server paperId) st) = false
  /\ summaryLoading (final_state (openPaper server paperId) st) = false.
Proof.
  assert (exists st' tr',
            run (openPaper server paperId) st = (inr tt, (st', tr'))
            /\ showModal st' = true /\ paperLoading st' = false
            /\ summaryLoading st' = false) as (st' & tr' & E & Hm & Hp & Hs).
  { unfold run, openPaper.
    unfold mbind, eff_bind, bind at 1 2 3 4 5 6 7 8.
    unfold update at 1 2 3 4 5 6 7. cbn [fst snd].
    match goal with
    | |- context [loadPaper server ?id ?w] =>
        destruct (loadPaper_done id w) as (st1 & tr1 & -> & Hp1 & Hm1 & Hs1)
    end.
    match goal with
    | |- context [loadSummary server ?id ?w] =>
        destruct (loadSummary_done id w) as (st2 & tr2 & -> & Hs2 & Hm2 & Hp2)
    end.
    cbn in Hm1, Hs1, Hm2, Hp2.
    exists st2, tr2. repeat split; congruence. }
  unfold final_state. rewrite E. now repeat split.
Qed.

Lemma requests_app (es fs : list Effect) :
  requests (es ++ fs) = requests es ++ requests fs.
Proof. apply omap_app. Qed.

(** C3: the id that keys the paper and the summary requests of [openPaper]
    is the first match of [/PMC\d+/i] in the paper id, whatever the case of
    its letters, and the paper id itself when nothing matches; the link to
    the article is built from the same match, and is [#] when the id is
    absent or nothing matches. *)
Theorem paper_id_normalized (paperId : jsstring) :
  ((exists w, first_pmc paperId w) \/ no_pmc paperId)
  /\ (forall w, first_pmc paperId w ->
      cleanId paperId = w
      /\ getPaperLink (Some paperId)
         = lit "https://www.ncbi.nlm.nih.gov/pmc/articles/" ++ w ++ lit "/")
  /\ (no_pmc paperId ->
      cleanId paperId = paperId /\ getPaperLink (Some paperId) = lit "#")
  /\ getPaperLink None = lit "#"
  /\ (forall st enc, encodeURIComponent (cleanId paperId) = inr enc ->
      requests (effects (openPaper server paperId) st)
      = [plain_get (paper_url enc); plain_get (summary_url enc)]).
Proof.
  split.
  { destruct (match_pmc paperId) as [w|] eqn:E.
    - left. exists w. now apply match_pmc_some.
    - right. now apply match_pmc_none. }
  split.
  { intros w Hw. apply first_pmc_match in Hw.
    unfold cleanId. rewrite getPaperLink_match, Hw. now split. }
  split.
  { intros Hno. apply no_pmc_match in Hno.
    unfold cleanId. rewrite getPaperLink_match, Hno. now split. }
  split; [reflexivity|].
  intros st enc Henc. unfold effects.
  rewrite (openPaper_run _ enc _ Henc). cbn [fst snd].
  rewrite !requests_app, paper_outcome_logs. reflexivity.
Qed.

(** *** The summary a client holds *)

Lemma own_member_absent (k : jsstring) (ms : list (jsstring * value)) :
  forallb (fun e => bool_decide (e.1 <> k)) ms = true ->
  own_member k ms = VUndefined.
Proof.
  induction ms as [|[k' v] ms IH]; simpl; [reflexivity|].
  intros Hall. apply andb_true_iff in Hall as [Hk Hms].
  apply bool_decide_eq_true in Hk. simpl in Hk.
  destruct (decide (k = k')); [congruence | now apply IH].
Qed.

Lemma summary_shape_no_summary (v : value) :
  summary_shape v = true -> member (lit "summary") v = Some VUndefined.
Proof.
  destruct v as [| | | | |items|ms]; try discriminate.
  unfold summary_shape. rewrite !andb_true_iff. intros ((((Hkeys & _) & _) & _) & _).
  simpl. f_equal. apply own_member_absent.
  rewrite forallb_forall in Hkeys |- *. intros e He.
  specialize (Hkeys e He). apply bool_decide_eq_true in Hkeys.
  apply bool_decide_eq_true. intros E. rewrite E in Hkeys.
  revert Hkeys. vm_compute. intros Hin.
  repeat (inversion Hin as [|? ? ? Hin']; subst; clear Hin; rename Hin' into Hin).
Qed.

(** C1, amended: what the client holds after [openPaper] is the [summary]
    member of the body of the summary response when that member is truthy,
    and null otherwise, so null for a body with exactly the members intro,
    key_points, outro and plain_text; when the response is not OK it holds
    null and the error Summary not found (status 404) or Summary API error
    with the status; when the request or the reading of the body fails it
    holds null and the message of the failure. *)
Theorem openPaper_reads_summary_member (paperId : jsstring) (st : State) :
  summaryLoading (final_state (openPaper server paperId) st) = false
  /\ (forall msg,
      encodeURIComponent (cleanId paperId) = inl msg ->
      paperSummary (final_state (openPaper server paperId) st) = VNull
      /\ summaryError (final_state (openPaper server paperId) st) = Some msg)
  /\ (forall enc resp j v,
      encodeURIComponent (cleanId paperId) = inr enc ->
      server (plain_get (summary_url enc)) = inr resp ->
      ok resp = true -> json_body resp = inr j ->
      member (lit "summary") j = Some v ->
      paperSummary (final_state (openPaper server paperId) st)
        = (if truthy v then v else VNull)
      /\ summaryError (final_state (openPaper server paperId) st) = None)
  /\ (forall enc resp j,
      encodeURIComponent (cleanId paperId) = inr enc ->
      server (plain_get (summary_url enc)) = inr resp ->
      ok resp = true -> json_body resp = inr j -> summary_shape j = true ->
      paperSummary (final_state (openPaper server paperId) st) = VNull
      /\ summaryError (final_state (openPaper server paperId) st) = None)
  /\ (forall enc resp,
      encodeURIComponent (cleanId paperId) = inr enc ->
      server (plain_get (summary_url enc)) = inr resp ->
      ok resp = false ->
      paperSummary (final_state (openPaper server paperId) st) = VNull
      /\ summaryError (final_state (openPaper server paperId) st)
         = Some (if status resp =? 404 then lit "Summary not found"
                 else lit "Summary API error: " ++ of_N (status resp)))
  /\ (forall enc resp t,
      encodeURIComponent (cleanId paperId) = inr enc ->
      server (plain_get (summary_url enc)) = inr resp ->
      ok resp = true -> json_body resp = inl t ->
      paperSummary (final_state (openPaper server paperId) st) = VNull
      /\ summaryError (final_state (openPaper server paperId) st)
         = Some (message_or t (lit "Failed to load summary")))
  /\ (forall enc resp j,
      encodeURIComponent (cleanId paperId) = inr enc ->
      server (plain_get (summary_url enc)) = inr resp ->
      ok resp = true -> json_body resp = inr j -> member (lit "summary") j = None ->
      paperSummary (final_state (openPaper server paperId) st) = VNull
      /\ summaryError (final_state (openPaper server paperId) st)
         = Some (nullPropertyMessage (lit "summary")))
  /\ (forall enc t,
      encodeURIComponent (cleanId paperId) = inr enc ->
      server (plain_get (summary_url enc)) = inl t ->
      paperSummary (final_state (openPaper server paperId) st) = VNull
      /\ summaryError (final_state (openPaper server paperId) st)
         = Some (message_or t (lit "Failed to load summary"))).
Proof.
  unfold final_state.
  destruct (encodeURIComponent (cleanId paperId)) as [msg|enc] eqn:Henc.
  { rewrite (openPaper_unencodable _ msg _ Henc). cbn [fst snd].
    split; [reflexivity|]. split; [now intros ? [= <-]|].
    repeat split; intros; discriminate. }
  rewrite (openPaper_run _ enc _ Henc). cbn [fst snd].
  set (st1 := (paper_outcome _ _).1).
  assert (summaryError st1 = None) as Herr.
  { unfold st1. now rewrite (proj2 (paper_outcome_summary _ _)). }
  assert (forall resp j v,
          server (plain_get (summary_url enc)) = inr resp ->
          ok resp = true -> json_body resp = inr j ->
          member (lit "summary") j = Some v ->
          paperSummary (summary_outcome (server (plain_get (summary_url enc))) st1)
            = (if truthy v then v else VNull)
          /\ summaryError (summary_outcome (server (plain_get (summary_url enc))) st1)
             = None) as Hok.
  { intros resp j v -> Hk Hj Hm. unfold summary_outcome. rewrite Hk, Hj, Hm. now split. }
  split.
  { unfold summary_outcome.
    destruct (server (plain_get (summary_url enc))) as [t|resp]; [reflexivity|].
    destruct (ok resp); [|destruct (status resp =? 404); reflexivity].
    destruct (json_body resp) as [t|j]; [reflexivity|].
    destruct (member (lit "summary") j); reflexivity. }
  split; [intros; discriminate|].
  split; [intros enc' resp j v [= <-]; apply Hok|].
  split.
  { intros enc' resp j [= <-] Hs Hk Hj Hshape.
    exact (Hok resp j VUndefined Hs Hk Hj (summary_shape_no_summary j Hshape)). }
  split.
  { intros enc' resp [= <-] -> Hk. unfold summary_outcome. rewrite Hk.
    destruct (status resp =? 404); now split. }
  split.
  { intros enc' resp t [= <-] -> Hk Hj. unfold summary_outcome. rewrite Hk, Hj. now split. }
  split.
  { intros enc' resp j [= <-] -> Hk Hj Hm. unfold summary_outcome.
    rewrite Hk, Hj, Hm. now split. }
  intros enc' t [= <-] ->. now split.
Qed.

End HandlerFacts.

(** C1, as stated, fails: the response body is a structured summary of the
    contract, and the client ends with neither that value nor an error. *)
Lemma openPaper_drops_structured_summary :
  summary_shape structured_summary = true
  /\ paperSummary
       (final_state (openPaper (H := Demo.runtime) structured_server (lit "PMC100")) initial)
     = VNull
  /\ summaryError
       (final_state (openPaper (H := Demo.runtime) structured_server (lit "PMC100")) initial)
     = None.
Proof. vm_compute. repeat split. Qed.

Lemma openPaper_reads_summary_member_witness :
  paperSummary
    (final_state (openPaper (H := Demo.runtime) flexible_server (lit "pmc100v2")) initial)
  = VStr (lit "Bones get weaker in space.")
  /\ summaryError
       (final_state (openPaper (H := Demo.runtime) flexible_server (lit "pmc100v2")) initial)
     = None.
Proof.
  destruct (openPaper_reads_summary_member (H := Demo.runtime) flexible_server
              (lit "pmc100v2") initial)
    as (_ & _ & Hok & _).
  exact (Hok (lit "pmc100") _ _ (VStr (lit "Bones get weaker in space."))
           eq_refl eq_refl eq_refl eq_refl eq_refl).
Defined.

Lemma paper_id_normalized_witness :
  cleanId (H := Demo.runtime) (lit "pmc100v2") = lit "pmc100"
  /\ getPaperLink (H := Demo.runtime) (Some (lit "see PmC42."))
     = lit "https://www.ncbi.nlm.nih.gov/pmc/articles/PmC42/"
  /\ cleanId (H := Demo.runtime) (lit "doi:10.1/x") = lit "doi:10.1/x"
  /\ requests (effects (openPaper (H := Demo.runtime) flexible_server (lit "pmc100v2")) initial)
     = [plain_get (lit "http://127.0.0.1:8000/paper/pmc100");
        plain_get (lit "http://127.0.0.1:8000/paper_summarized/pmc100")].
Proof.
  split; [|split; [|split]].
  - destruct (paper_id_normalized (H := Demo.runtime) flexible_server (lit "pmc100v2"))
      as (_ & Hfirst & _).
    refine (proj1 (Hfirst (lit "pmc100")
                     (match_pmc_some (H := Demo.runtime) (lit "pmc100v2") _ _))).
    vm_compute. reflexivity.
  - destruct (paper_id_normalized (H := Demo.runtime) flexible_server (lit "see PmC42."))
      as (_ & Hfirst & _).
    refine (proj2 (Hfirst (lit "PmC42")
                     (match_pmc_some (H := Demo.runtime) (lit "see PmC42.") _ _))).
    vm_compute. reflexivity.
  - destruct (paper_id_normalized (H := Demo.runtime) flexible_server (lit "doi:10.1/x"))
      as (_ & _ & Hnone & _).
    refine (proj1 (Hnone (match_pmc_none (H := Demo.runtime) (lit "doi:10.1/x") _))).
    vm_compute. reflexivity.
  - destruct (paper_id_normalized (H := Demo.runtime) flexible_server (lit "pmc100v2"))
      as (_ & _ & _ & _ & Hreq).
    apply (Hreq initial (lit "pmc100")). reflexivity.
Defined.

End SearchPageFacts.

(** ** The two forms *)
Module FormFacts.
Import JS Handler PageSpec JSFacts.
Import SearchPageFacts.

Section Forms.
Context `{Runtime} (server : Server).

Lemma handleSearch_blank (e : option unit) (st : SearchPage.State) :
  trim (SearchPage.query st) = [] ->
  run (SearchPage.handleSearch server e) st = (inr tt, (st, prevented e)).
Proof.
  intros Hq. unfold run, SearchPage.handleSearch. run_handler.
  destruct e; cbn [fst snd]; rewrite Hq; reflexivity.
Qed.

Lemma handleSearch_run (e : option unit) (st : SearchPage.State) (enc : jsstring) :
  trim (SearchPage.query st) <> [] ->
  encodeURIComponent (SearchPage.query st) = inr enc ->
  run (SearchPage.handleSearch server e) st =
    (inr tt,
     (search_outcome (server (json_get (SearchPage.search_url enc))) (search_started st),
      prevented e ++ [Fetch (json_get (SearchPage.search_url enc))])).
Proof.
  intros Hq Henc. apply truthy_string_true in Hq.
  unfold run, SearchPage.handleSearch, search_outcome, search_failed, search_started.
  run_handler.
  destruct e; cbn [fst snd]; rewrite Hq; cbn [negb fst snd]; rewrite Henc; cbn [fst snd];
    (destruct (server (json_get (SearchPage.search_url enc))) as [t|resp]; [reflexivity|]);
    (destruct (ok resp); cbn [negb fst snd]; [|reflexivity]);
    (destruct (json_body resp) as [t|data]; [reflexivity|]);
    destruct (member (lit "results") data); reflexivity.
Qed.

Lemma handleSearch_throws (e : option unit) (st : SearchPage.State) (msg : jsstring) :
  encodeURIComponent (SearchPage.query st) = inl msg ->
  requests (effects (SearchPage.handleSearch server e) st) = [].
Proof.
  intros Henc. unfold effects, run, SearchPage.handleSearch. run_handler.
  destruct e; cbn [fst snd];
    (destruct (truthy_string (trim (SearchPage.query st))); cbn [negb fst snd];
     [rewrite Henc|]; reflexivity).
Qed.

Lemma handleSubmit_blank (st : QAPage.State) :
  trim (QAPage.question st) = [] ->
  run (QAPage.handleSubmit server) st = (inr tt, (st, [PreventDefault])).
Proof.
  intros Hq. unfold run, QAPage.handleSubmit. run_handler.
  rewrite Hq. reflexivity.
Qed.

Lemma handleSubmit_run (st : QAPage.State) (enc : jsstring) :
  trim (QAPage.question st) <> [] ->
  encodeURIComponent (QAPage.question st) = inr enc ->
  run (QAPage.handleSubmit server) st =
    (inr tt,
     (qa_outcome (server (json_get (QAPage.qa_url enc))) (qa_started st),
      [PreventDefault; Fetch (json_get (QAPage.qa_url enc))])).
Proof.
  intros Hq Henc. apply truthy_string_true in Hq.
  unfold run, QAPage.handleSubmit, qa_outcome, qa_started. run_handler.
  rewrite Hq. cbn [negb fst snd]. rewrite Henc. cbn [fst snd].
  destruct (server (json_get (QAPage.qa_url enc))) as [t|resp]; [reflexivity|].
  destruct (ok resp); cbn [negb fst snd]; [|reflexivity].
  destruct (json_body resp) as [t|data]; reflexivity.
Qed.

(** C4: when the query is empty after trimming, submitting the search form
    or the QA form sends no request and leaves the whole state of the page
    as it was; a request is sent only when the trimmed query is not empty
    (and then it is the one request of the form). *)
Theorem blank_query_sends_nothing
    (e : option unit) (st : SearchPage.State) (qst : QAPage.State) :
  (trim (SearchPage.query st) = [] ->
   final_state (SearchPage.handleSearch server e) st = st
   /\ requests (effects (SearchPage.handleSearch server e) st) = [])
  /\ (trim (QAPage.question qst) = [] ->
      final_state (QAPage.handleSubmit server) qst = qst
      /\ requests (effects (QAPage.handleSubmit server) qst) = [])
  /\ (requests (effects (SearchPage.handleSearch server e) st) <> [] ->
      trim (SearchPage.query st) <> [])
  /\ (requests (effects (QAPage.handleSubmit server) qst) <> [] ->
      trim (QAPage.question qst) <> [])
  /\ (forall enc, trim (SearchPage.query st) <> [] ->
      encodeURIComponent (SearchPage.query st) = inr enc ->
      requests (effects (SearchPage.handleSearch server e) st)
      = [json_get (SearchPage.search_url enc)])
  /\ (forall enc, trim (QAPage.question qst) <> [] ->
      encodeURIComponent (QAPage.question qst) = inr enc ->
      requests (effects (QAPage.handleSubmit server) qst)
      = [json_get (QAPage.qa_url enc)]).
Proof.
  assert (forall e', requests (prevented e') = []) as Hprev by (now intros [|]).
  assert (trim (SearchPage.query st) = [] ->
          final_state (SearchPage.handleSearch server e) st = st
          /\ requests (effects (SearchPage.handleSearch server e) st) = []) as Hs.
  { intros Hq. unfold final_state, effects. rewrite (handleSearch_blank e st Hq).
    cbn [fst snd]. split; [reflexivity | apply Hprev]. }
  assert (trim (QAPage.question qst) = [] ->
          final_state (QAPage.handleSubmit server) qst = qst
          /\ requests (effects (QAPage.handleSubmit server) qst) = []) as Hq.
  { intros Hb. unfold final_state, effects. rewrite (handleSubmit_blank qst Hb).
    split; reflexivity. }
  split; [exact Hs|]. split; [exact Hq|].
  split; [intros Hreq Hb; apply Hreq; now apply Hs|].
  split; [intros Hreq Hb; apply Hreq; now apply Hq|].
  split.
  - intros enc Hne Henc. unfold effects. rewrite (handleSearch_run e st enc Hne Henc).
    cbn [fst snd]. rewrite requests_app, Hprev. reflexivity.
  - intros enc Hne Henc. unfold effects. rewrite (handleSubmit_run qst enc Hne Henc).
    reflexivity.
Qed.

(** X3: a search with a query that is not blank throws nothing and ends
    with the loading flag cleared and the page reset to 1; it ends either
    with no error, or with an error message, no results and a total count
    of 0. *)
Theorem handleSearch_settles (e : option unit) (st : SearchPage.State) :
  trim (SearchPage.query st) <> [] ->
  (run (SearchPage.handleSearch server e) st).1 = inr tt
  /\ SearchPage.loading (final_state (SearchPage.handleSearch server e) st) = false
  /\ SearchPage.page (final_state (SearchPage.handleSearch server e) st) = 1
  /\ (SearchPage.error (final_state (SearchPage.handleSearch server e) st) = None
      \/ exists msg,
           SearchPage.error (final_state (SearchPage.handleSearch server e) st) = Some msg
           /\ SearchPage.results (final_state (SearchPage.handleSearch server e) st) = VArr []
           /\ SearchPage.totalCount (final_state (SearchPage.handleSearch server e) st)
              = VNum 0).
Proof.
  intros Hq. apply truthy_string_true in Hq.
  unfold final_state, run, SearchPage.handleSearch. run_handler.
  destruct e; cbn [fst snd]; rewrite Hq; cbn [negb fst snd];
    (destruct (encodeURIComponent (SearchPage.query st)) as [msg|enc]; cbn [fst snd];
     [repeat split; right; eexists; now repeat split|]);
    (destruct (server (json_get (SearchPage.search_url enc))) as [t|resp];
     [repeat split; right; eexists; now repeat split|]);
    (destruct (ok resp); cbn [negb fst snd];
     [|repeat split; right; eexists; now repeat split]);
    (destruct (json_body resp) as [t|data];
     [repeat split; right; eexists; now repeat split|]);
    (destruct (member (lit "results") data);
     [repeat split; now left | repeat split; right; eexists; now repeat split]).
Qed.

(** X4: a question that is not blank throws nothing and ends with the
    loading flag cleared; it ends either with the body of the answer as the
    response and no error, or with no response and an error message. *)
Theorem handleSubmit_settles (qst : QAPage.State) :
  trim (QAPage.question qst) <> [] ->
  (run (QAPage.handleSubmit server) qst).1 = inr tt
  /\ QAPage.loading (final_state (QAPage.handleSubmit server) qst) = false
  /\ ((exists enc resp data,
         encodeURIComponent (QAPage.question qst) = inr enc
         /\ server (json_get (QAPage.qa_url enc)) = inr resp
         /\ ok resp = true /\ json_body resp = inr data
         /\ QAPage.response (final_state (QAPage.handleSubmit server) qst) = data
         /\ QAPage.error (final_state (QAPage.handleSubmit server) qst) = None)
      \/ (exists msg,
            QAPage.response (final_state (QAPage.handleSubmit server) qst) = VNull
            /\ QAPage.error (final_state (QAPage.handleSubmit server) qst) = Some msg)).
Proof.
  intros Hq. apply truthy_string_true in Hq.
  unfold final_state, run, QAPage.handleSubmit. run_handler.
  rewrite Hq. cbn [negb fst snd].
  destruct (encodeURIComponent (QAPage.question qst)) as [msg|enc] eqn:Eenc; cbn [fst snd];
    [repeat split; right; eexists; now split|].
  destruct (server (json_get (QAPage.qa_url enc))) as [t|resp] eqn:Es;
    [repeat split; right; eexists; now split|].
  destruct (ok resp) eqn:Eok; cbn [negb fst snd];
    [|repeat split; right; eexists; now split].
  destruct (json_body resp) as [t|data] eqn:Ej;
    [repeat split; right; eexists; now split|].
  repeat split. left. exists enc, resp, data. now repeat split.
Qed.

End Forms.

Lemma blank_query_sends_nothing_witness :
  final_state (SearchPage.handleSearch (H := Demo.runtime) empty_server (Some tt)) blank_search
  = blank_search
  /\ requests (effects (SearchPage.handleSearch (H := Demo.runtime) empty_server (Some tt))
                blank_search) = []
  /\ final_state (QAPage.handleSubmit (H := Demo.runtime) empty_server) QAPage.initial
     = QAPage.initial.
Proof.
  destruct (blank_query_sends_nothing (H := Demo.runtime) empty_server (Some tt)
              blank_search QAPage.initial) as (Hs & Hq & _).
  destruct (Hs eq_refl) as [Hst Hreq]. destruct (Hq eq_refl) as [Hqst _].
  repeat split; assumption.
Defined.

(** The forms at work: a query is sent encoded, and the state follows the
    answer. *)
Example handleSearch_sends :
  requests (effects (SearchPage.handleSearch (H := Demo.runtime) empty_server None)
              typed_search)
  = [json_get (lit "http://127.0.0.1:8000/search?q=bone%20loss&k=50")].
Proof. vm_compute. reflexivity. Qed.

Lemma handleSearch_settles_witness :
  SearchPage.loading
    (final_state (SearchPage.handleSearch (H := Demo.runtime) empty_server None) typed_search)
  = false
  /\ SearchPage.page
       (final_state (SearchPage.handleSearch (H := Demo.runtime) empty_server None)
          typed_search)
     = 1.
Proof.
  destruct (handleSearch_settles (H := Demo.runtime) empty_server None typed_search)
    as (_ & Hl & Hp & _); [vm_compute; discriminate|].
  now split.
Defined.

Lemma handleSubmit_settles_witness :
  QAPage.loading
    (final_state (QAPage.handleSubmit (H := Demo.runtime) empty_server) typed_question)
  = false.
Proof.
  destruct (handleSubmit_settles (H := Demo.runtime) empty_server typed_question)
    as (_ & Hl & _); [vm_compute; discriminate|].
  exact Hl.
Defined.

End FormFacts.

(** ** The engine: search *)
Module SearchFacts.
Import Engine EngineSpec.
Local Open Scope nat_scope.

Lemma ranks_before_order (a b : SearchResult) :
  ranks_before a b = true -> in_rank_order a b.
Proof.
  unfold ranks_before, in_rank_order.
  destruct (score a ?= score b)%Q eqn:E; [| discriminate |].
  - intros Hc. apply Qeq_alt in E. apply Z.leb_le in Hc.
    split; [rewrite E; apply Qle_refl | now intros _].
  - intros _. apply Qgt_alt in E. split; [now apply Qlt_le_weak|].
    intros Heq. rewrite Heq in E. now apply Qlt_irrefl in E.
Qed.

Lemma ranks_before_total (a b : SearchResult) :
  ranks_before a b = false -> in_rank_order b a.
Proof.
  unfold ranks_before, in_rank_order.
  destruct (score a ?= score b)%Q eqn:E; [| | discriminate].
  - intros Hc. apply Qeq_alt in E. apply Z.leb_gt in Hc.
    split; [rewrite E; apply Qle_refl | intros _; lia].
  - intros _. apply Qlt_alt in E. split; [now apply Qlt_le_weak|].
    intros Heq. rewrite Heq in E. now apply Qlt_irrefl in E.
Qed.

Lemma in_rank_order_trans (a b c : SearchResult) :
  in_rank_order a b -> in_rank_order b c -> in_rank_order a c.
Proof.
  intros [Hab Tab] [Hbc Tbc]. split; [now apply Qle_trans with (score b)|].
  intros Hac.
  assert (score a == score b)%Q as Eab.
  { apply Qle_antisym; [|exact Hab]. rewrite Hac. exact Hbc. }
  assert (score b == score c)%Q as Ebc by (now rewrite <- Eab).
  specialize (Tab Eab). specialize (Tbc Ebc). lia.
Qed.

Lemma insert_ranked_perm (r : SearchResult) (rs : list SearchResult) :
  Permutation (insert_ranked r rs) (r :: rs).
Proof.
  induction rs as [|x rs IH]; simpl; [reflexivity|].
  destruct (ranks_before r x); [reflexivity|].
  rewrite IH. apply perm_swap.
Qed.

Lemma sort_ranked_perm (rs : list SearchResult) : Permutation (sort_ranked rs) rs.
Proof.
  induction rs as [|r rs IH]; simpl; [reflexivity|].
  rewrite insert_ranked_perm. now constructor.
Qed.

Lemma insert_ranked_sorted (r : SearchResult) (rs : list SearchResult) :
  StronglySorted in_rank_order rs -> StronglySorted in_rank_order (insert_ranked r rs).
Proof.
  induction rs as [|x rs IH]; simpl; intros Hs.
  - repeat constructor.
  - inversion Hs as [|? ? Hs' Hx]; subst.
    destruct (ranks_before r x) eqn:E.
    + apply ranks_before_order in E. constructor; [exact Hs|].
      constructor; [exact E|].
      eapply Forall_impl; [exact Hx|]. intros y Hy. now apply in_rank_order_trans with x.
    + apply ranks_before_total in E. constructor; [now apply IH|].
      rewrite (insert_ranked_perm r rs). now constructor.
Qed.

Lemma sort_ranked_sorted (rs : list SearchResult) :
  StronglySorted in_rank_order (sort_ranked rs).
Proof.
  induction rs as [|r rs IH]; simpl; [constructor | now apply insert_ranked_sorted].
Qed.

Lemma per_paper_sublist (seen : list string) (rs : list SearchResult) :
  per_paper seen rs `sublist_of` rs.
Proof.
  revert seen. induction rs as [|r rs IH]; intros seen; simpl; [constructor|].
  destruct (decide (paper_id r ∈ seen)); [apply sublist_cons | apply sublist_skip]; apply IH.
Qed.

Lemma sublist_sorted {A} (R : A -> A -> Prop) (k l : list A) :
  k `sublist_of` l -> StronglySorted R l -> StronglySorted R k.
Proof.
  induction 1 as [|x k l Hkl IH|x k l Hkl IH]; intros Hs.
  - constructor.
  - inversion Hs as [|? ? Hs' Hx]; subst. constructor; [now apply IH|].
    rewrite Forall_forall in Hx |- *. intros y Hy. apply Hx.
    now apply elem_of_sublist with k.
  - inversion Hs; subst. now apply IH.
Qed.

(** In the per-document mode no paper appears twice. *)
Lemma per_paper_papers (seen : list string) (rs : list SearchResult) :
  NoDup (map paper_id (per_paper seen rs))
  /\ forall r, r ∈ per_paper seen rs -> paper_id r ∉ seen.
Proof.
  revert seen. induction rs as [|r rs IH]; intros seen; simpl.
  - split; [constructor | intros r Hr; inversion Hr].
  - destruct (decide (paper_id r ∈ seen)) as [Hin|Hin]; [apply IH|].
    destruct (IH (paper_id r :: seen)) as [Hnd Hout]. split.
    + simpl. apply NoDup_cons. split; [|exact Hnd].
      intros Hr. apply list_elem_of_fmap in Hr as (y & Ey & Hy).
      apply (Hout y Hy). rewrite <- Ey. left.
    + intros y Hy. apply elem_of_cons in Hy as [->|Hy]; [exact Hin|].
      intros Hs. apply (Hout y Hy). now right.
Qed.

Section Search.
Context {vector : Type}.
Context (embed : string -> option vector).
Context (nearest : vector -> nat -> option (list (Z * Q))).
Context (chunks : gmap Z Chunk).
Context (to_score : Q -> Q).
Context (max_k : nat).

Lemma resolve_chunk_id (hit : Z * Q) (r : SearchResult) :
  resolve chunks to_score hit = Some r -> chunk_id r = hit.1.
Proof.
  unfold resolve. destruct (chunks !! hit.1); [|discriminate]. now intros [= <-].
Qed.

Lemma resolved_ids_sublist (hits : list (Z * Q)) :
  map chunk_id (omap (resolve chunks to_score) hits) `sublist_of` hits.*1.
Proof.
  induction hits as [|h hits IH]; simpl; [constructor|].
  destruct (resolve chunks to_score h) as [r|] eqn:E; simpl.
  - rewrite (resolve_chunk_id h r E). now apply sublist_skip.
  - now apply sublist_cons.
Qed.

Lemma resolved_length (hits : list (Z * Q)) :
  length (omap (resolve chunks to_score) hits) <= length hits.
Proof.
  induction hits as [|h hits IH]; simpl; [lia|].
  change (list_omap _ _ (resolve chunks to_score) hits)
    with (omap (resolve chunks to_score) hits).
  destruct (resolve chunks to_score h); simpl; lia.
Qed.

(** C5: over an index that returns at most the neighbours asked for, each
    chunk once, [search(q, k)] fails with EmbeddingError or IndexUnavailable
    or returns at most [k] results, in non-increasing order of score with
    equal scores in ascending order of chunk id, and no chunk id twice;
    this holds in both modes, whatever the query and [k]. *)
Theorem search_ranked (per_document : bool) (query : string) (k : nat) :
  index_contract nearest ->
  search embed nearest chunks to_score max_k per_document query k = inl EmbeddingError
  \/ search embed nearest chunks to_score max_k per_document query k = inl IndexUnavailable
  \/ exists rs,
       search embed nearest chunks to_score max_k per_document query k = inr rs
       /\ length rs <= k
       /\ StronglySorted in_rank_order rs
       /\ NoDup (map chunk_id rs).
Proof.
  intros Hindex. unfold search.
  destruct (embed query) as [v|]; [|now left].
  destruct (nearest v (Nat.min k max_k)) as [hits|] eqn:Eh; [|right; now left].
  right; right. destruct (Hindex _ _ _ Eh) as [Hlen Hnd].
  set (ranked := sort_ranked (omap (resolve chunks to_score) hits)).
  assert (length ranked <= k) as Hk.
  { unfold ranked. rewrite (Permutation_length (sort_ranked_perm _)).
    pose proof (resolved_length hits). lia. }
  assert (StronglySorted in_rank_order ranked) as Hs by apply sort_ranked_sorted.
  assert (NoDup (map chunk_id ranked)) as Hd.
  { unfold ranked.
    rewrite (Permutation_map chunk_id (sort_ranked_perm _)).
    eapply sublist_NoDup; [exact Hnd | apply resolved_ids_sublist]. }
  destruct per_document.
  - exists (per_paper [] ranked). split; [reflexivity|].
    pose proof (per_paper_sublist [] ranked) as Hsub. repeat split.
    + apply sublist_length in Hsub. lia.
    + now apply sublist_sorted with ranked.
    + eapply sublist_NoDup; [exact Hd|]. now apply (fmap_sublist chunk_id).
  - exists ranked. now repeat split.
Qed.

End Search.

Lemma demo_index_contract : index_contract demo_nearest.
Proof.
  intros v n hits [= <-]. split; [rewrite length_take; lia|].
  eapply sublist_NoDup; [|apply (fmap_sublist fst), sublist_take].
  apply (bool_decide_unpack _). vm_compute. exact I.
Qed.

Lemma search_ranked_witness :
  exists rs,
    search (fun _ => Some tt) demo_nearest demo_chunks demo_score 100 false
      "microgravity" 5 = inr rs
    /\ map chunk_id rs = [5%Z; 7%Z; 3%Z]
    /\ length rs <= 5
    /\ StronglySorted in_rank_order rs
    /\ NoDup (map chunk_id rs).
Proof.
  destruct (search_ranked (fun _ => Some tt) demo_nearest demo_chunks demo_score 100
              false "microgravity" 5 demo_index_contract)
    as [E|[E|(rs & E & Hlen & Hsort & Hnd)]].
  - vm_compute in E. discriminate E.
  - vm_compute in E. discriminate E.
  - exists rs. repeat split; try assumption.
    assert (inr rs = search (fun _ => Some tt) demo_nearest demo_chunks demo_score 100
                       false "microgravity" 5 :> Error + list SearchResult) as E'
      by (symmetry; exact E).
    vm_compute in E'. injection E' as ->. reflexivity.
Defined.

(** In the per-document mode the second chunk of PMC100 goes. *)
Example search_per_document :
  (fun r => match r with inr rs => map chunk_id rs | inl _ => [] end)
    (search (fun _ => Some tt) demo_nearest demo_chunks demo_score 100 true
       "microgravity" 5)
  = [5%Z; 3%Z].
Proof. vm_compute. reflexivity. Qed.

End SearchFacts.

(** ** The engine: summaries *)
Module SummaryFacts.
Import Engine EngineSpec.
Local Open Scope nat_scope.

Lemma strings_of_JStr (ks : list string) :
  mapM (fun j => match j with JStr s => Some s | _ => None end) (map JStr ks) = Some ks.
Proof.
  induction ks as [|k ks IH]; [reflexivity|].
  cbn [map mapM]. rewrite IH. reflexivity.
Qed.

Lemma serialize_members (s : Summary) :
  exists ms,
    serialize s = JObj ms
    /\ string_field "paper_id" ms = Some (sum_paper s)
    /\ string_field "intro" ms = Some (intro s)
    /\ strings_field "key_points" ms = Some (key_points s)
    /\ string_field "outro" ms = Some (outro s)
    /\ string_field "plain_text" ms = Some (plain_text s).
Proof.
  eexists. split; [reflexivity|].
  repeat split; try (vm_compute; reflexivity).
  unfold strings_field.
  match goal with
  | |- context [field ?k ?ms] =>
      replace (field k ms) with (Some (JArr (map JStr (key_points s))))
        by (vm_compute; reflexivity)
  end.
  apply strings_of_JStr.
Qed.

(** C7: deserializing the serialization of a valid Summary gives the
    Summary back. *)
Theorem serialize_roundtrip (s : Summary) :
  valid s = true -> deserialize (serialize s) = Some s.
Proof.
  intros Hv. destruct (serialize_members s) as (ms & -> & Hp & Hi & Hk & Ho & Ht).
  unfold deserialize. rewrite Hp. cbn. rewrite Hi. cbn. rewrite Hk. cbn.
  rewrite Ho. cbn. rewrite Ht. cbn.
  destruct s as [p i ks o t]. cbn in *. now rewrite Hv.
Qed.

Lemma deserialize_valid (j : json) (s : Summary) :
  deserialize j = Some s -> valid s = true.
Proof.
  unfold deserialize. destruct j as [| | | | |ms]; try discriminate.
  destruct (string_field "paper_id" ms); [|discriminate].
  destruct (string_field "intro" ms); [|discriminate].
  destruct (strings_field "key_points" ms); [|discriminate].
  destruct (string_field "outro" ms); [|discriminate].
  destruct (string_field "plain_text" ms); [|discriminate].
  cbn. destruct (valid _) eqn:E; [|discriminate]. now intros [= <-].
Qed.

Lemma validate_valid (key : string) (j : json) (s : Summary) :
  validate key j = Some s -> valid s = true.
Proof.
  unfold validate. destruct j as [| | | | |ms]; try discriminate.
  destruct (string_field "intro" ms); [|discriminate].
  destruct (strings_field "key_points" ms); [|discriminate].
  destruct (string_field "outro" ms); [|discriminate].
  destruct (string_field "plain_text" ms); [|discriminate].
  cbn. destruct (valid _) eqn:E; [|discriminate]. now intros [= <-].
Qed.

(** A valid Summary has four key points and no empty field. *)
Lemma valid_spec (s : Summary) :
  valid s = true <->
  sum_paper s <> EmptyString /\ intro s <> EmptyString /\ length (key_points s) = 4
  /\ outro s <> EmptyString /\ plain_text s <> EmptyString.
Proof.
  assert (forall x, nonempty x = true <-> x <> EmptyString) as Hne.
  { intros [|a x]; simpl; split; congruence. }
  unfold valid. rewrite !andb_true_iff, !Hne, Nat.eqb_eq. tauto.
Qed.

Section Generate.
Context (cfg : Setup) (backend : Backend).

Lemma generate_some (n i : nat) (key prompt : string) (s : Summary) (calls : list string) :
  generate cfg backend n i key prompt = (Some s, calls) ->
  valid s = true /\ 1 <= length calls <= n.
Proof.
  revert i calls. induction n as [|n IH]; intros i calls; cbn [generate]; [discriminate|].
  destruct ((backend i _ ≫= decode cfg) ≫= validate key) as [s'|] eqn:E.
  - intros [= <- <-]. split; [|simpl; lia].
    destruct (backend i _ ≫= decode cfg) as [j|]; [|discriminate].
    now apply validate_valid with key j.
  - destruct (generate cfg backend n (S i) key prompt) as [r calls'] eqn:G.
    cbn. intros [= -> <-]. destruct (IH _ _ G) as [Hv Hl]. split; [exact Hv|simpl; lia].
Qed.

Lemma generate_none (n i : nat) (key prompt : string) (calls : list string) :
  generate cfg backend n i key prompt = (None, calls) -> length calls = n.
Proof.
  revert i calls. induction n as [|n IH]; intros i calls; cbn [generate].
  - now intros [= <-].
  - destruct ((backend i _ ≫= decode cfg) ≫= validate key) as [s'|]; [discriminate|].
    destruct (generate cfg backend n (S i) key prompt) as [r calls'] eqn:G.
    cbn. intros [= -> <-]. simpl. f_equal. now apply IH with (S i).
Qed.

(** C6: [getSummary] returns a Summary only if it is valid (four key
    points, no empty field); an entry it adds to the cache is the
    serialization of a valid Summary; it calls the backend at most once
    plus the retry bound; and it ends in one of three ways: a valid Summary,
    SourceUnavailable with the cache untouched and no call, or
    SummarizationFailed with the cache untouched after all the attempts. *)
Theorem getSummary_valid (paper : string) (c : Cache) :
  (forall s, result_of (getSummary cfg backend paper c) = inr s ->
     valid s = true /\ length (key_points s) = 4)
  /\ (forall key j, cache_of (getSummary cfg backend paper c) !! key = Some j ->
      c !! key = Some j \/ exists s, valid s = true /\ j = serialize s)
  /\ length (calls_of (getSummary cfg backend paper c)) <= S (max_retries cfg)
  /\ ((exists s, result_of (getSummary cfg backend paper c) = inr s /\ valid s = true)
      \/ (result_of (getSummary cfg backend paper c) = inl SourceUnavailable
          /\ cache_of (getSummary cfg backend paper c) = c
          /\ calls_of (getSummary cfg backend paper c) = [])
      \/ (result_of (getSummary cfg backend paper c) = inl SummarizationFailed
          /\ cache_of (getSummary cfg backend paper c) = c
          /\ length (calls_of (getSummary cfg backend paper c)) = S (max_retries cfg))).
Proof.
  assert (forall s, valid s = true -> length (key_points s) = 4) as Hfour.
  { intros s Hv. now apply valid_spec in Hv. }
  unfold getSummary, result_of, cache_of, calls_of.
  destruct (cache_get (normalize cfg paper) c) as [s0|] eqn:Eget.
  { assert (valid s0 = true) as Hv.
    { unfold cache_get in Eget. destruct (c !! normalize cfg paper) as [j|]; [|discriminate].
      now apply deserialize_valid with j. }
    cbn [fst snd]. split; [intros s [= <-]; auto|]. split; [now left|]. split; [simpl; lia|].
    left. now exists s0. }
  destruct (build_prompt cfg (normalize cfg paper)) as [prompt|].
  2:{ cbn [fst snd]. split; [discriminate|]. split; [now left|]. split; [simpl; lia|].
      right; left. now repeat split. }
  destruct (generate cfg backend (S (max_retries cfg)) 0 (normalize cfg paper) prompt)
    as [[s1|] calls] eqn:G.
  - destruct (generate_some _ _ _ _ _ _ G) as [Hv Hl]. cbn [fst snd].
    split; [intros s [= <-]; auto|]. split.
    { intros key j. unfold cache_put.
      destruct (decide (key = normalize cfg paper)) as [->|Hne].
      - rewrite lookup_insert_eq. intros [= <-]. right. now exists s1.
      - rewrite lookup_insert_ne by congruence. now left. }
    split; [simpl; lia|]. left. now exists s1.
  - apply generate_none in G. cbn [fst snd].
    split; [discriminate|]. split; [now left|]. split; [simpl; lia|].
    right; right. now repeat split.
Qed.

End Generate.

Lemma reachable_sound (cfg : Setup) (c : Cache) : reachable cfg c -> cache_sound cfg c.
Proof.
  induction 1 as [|backend paper c Hr IH|key c Hr IH]; intros k j.
  - now rewrite lookup_empty.
  - unfold cache_of, getSummary.
    destruct (cache_get (normalize cfg paper) c); [apply IH|].
    destruct (build_prompt cfg (normalize cfg paper)) as [prompt|] eqn:Ep; [|apply IH].
    destruct (generate cfg backend _ 0 _ prompt) as [[s|] calls]; [|apply IH].
    cbn [fst snd]. unfold cache_put. destruct (decide (k = normalize cfg paper)) as [->|Hne].
    + intros _. now rewrite Ep.
    + rewrite lookup_insert_ne by congruence. apply IH.
  - destruct (decide (k = key)) as [->|Hne].
    + now rewrite lookup_delete_eq.
    + rewrite lookup_delete_ne by congruence. apply IH.
Qed.

Lemma unresolvable_no_prompt (cfg : Setup) (paper : string) :
  unresolvable cfg paper -> build_prompt cfg (normalize cfg paper) = None.
Proof.
  unfold unresolvable, build_prompt.
  destruct (documents cfg !! normalize cfg paper) as [d|]; [|reflexivity].
  intros ->. now destruct (decide _).
Qed.

(** C8: for a paper id with no Document or no sections, [getSummary] never
    calls the generative backend, and on every cache the pipeline can leave
    over that document storage it fails with SourceUnavailable and leaves
    the cache as it was. *)
Theorem getSummary_source_unavailable
    (cfg : Setup) (backend : Backend) (paper : string) (c : Cache) :
  unresolvable cfg paper ->
  calls_of (getSummary cfg backend paper c) = []
  /\ (reachable cfg c ->
      getSummary cfg backend paper c = (inl SourceUnavailable, c, [])).
Proof.
  intros Hun. apply unresolvable_no_prompt in Hun. split.
  - unfold calls_of, getSummary.
    destruct (cache_get (normalize cfg paper) c); [reflexivity|]. now rewrite Hun.
  - intros Hr. apply reachable_sound in Hr. unfold getSummary.
    assert (c !! normalize cfg paper = None) as Hmiss.
    { destruct (c !! normalize cfg paper) as [j|] eqn:E; [|reflexivity].
      now destruct (Hr _ _ E). }
    unfold cache_get. rewrite Hmiss. cbn. now rewrite Hun.
Qed.

Lemma serialize_roundtrip_witness :
  valid good_summary = true /\ deserialize (serialize good_summary) = Some good_summary.
Proof. split; [reflexivity | apply serialize_roundtrip; reflexivity]. Defined.

Lemma getSummary_source_unavailable_witness :
  getSummary demo_setup demo_backend "PMC_NONEXISTENT" ∅ = (inl SourceUnavailable, ∅, [])
  /\ getSummary demo_setup demo_backend "PMC300" ∅ = (inl SourceUnavailable, ∅, []).
Proof.
  split.
  - apply (getSummary_source_unavailable demo_setup demo_backend "PMC_NONEXISTENT" ∅);
      [vm_compute; exact I | constructor].
  - apply (getSummary_source_unavailable demo_setup demo_backend "PMC300" ∅);
      [vm_compute; reflexivity | constructor].
Defined.

Lemma getSummary_valid_witness :
  valid good_summary = true
  /\ result_of (getSummary demo_setup demo_backend "PMC100" ∅) = inr good_summary.
Proof.
  destruct (getSummary_valid demo_setup demo_backend "PMC100" ∅) as (Hvalid & _).
  assert (result_of (getSummary demo_setup demo_backend "PMC100" ∅) = inr good_summary)
    as E by (vm_compute; reflexivity).
  split; [exact (proj1 (Hvalid good_summary E)) | exact E].
Defined.

(** The pipeline at work: the first answer has three key points, the retry
    is wrapped in prose and is repaired by extraction; the Summary is cached
    and the next request is a hit that calls nothing. *)
Example getSummary_repairs :
  getSummary demo_setup demo_backend "PMC100" ∅
  = (inr good_summary, {["PMC100" := serialize good_summary]},
     ["Summarize: Abstract: Mice lose bone. Results: Density fell. ";
      "Summarize: Abstract: Mice lose bone. Results: Density fell.  Answer with JSON only."]).
Proof. vm_compute. reflexivity. Qed.

Example getSummary_hit :
  getSummary demo_setup demo_backend "PMC100" {["PMC100" := serialize good_summary]}
  = (inr good_summary, {["PMC100" := serialize good_summary]}, []).
Proof. vm_compute. reflexivity. Qed.

Example first_balanced_object_prose :
  first_balanced_object "Sure! {a{b}c} and {d}" = Some "{a{b}c}".
Proof. reflexivity. Qed.

End SummaryFacts.

(** ** Pages of results *)
Module PagingFacts.
Import SearchPageView.
Local Open Scope Z_scope.

Lemma ceil_div_bounds (n : Z) : 6 * (ceil_div n 6 - 1) < n <= 6 * ceil_div n 6.
Proof.
  unfold ceil_div.
  pose proof (Z.div_mod (- n) 6 ltac:(lia)) as Hd.
  pose proof (Z.mod_pos_bound (- n) 6 ltac:(lia)) as Hm. lia.
Qed.

Lemma slice_chunk {A} (l : list A) (a : nat) :
  slice (Z.of_nat a) (Z.of_nat a + 6) l = take 6 (drop a l).
Proof.
  unfold slice.
  destruct (Z.of_nat a <? 0) eqn:E1; [apply Z.ltb_lt in E1; lia|].
  destruct (Z.of_nat a + 6 <? 0) eqn:E2; [apply Z.ltb_lt in E2; lia|].
  destruct (decide (a <= length l)%nat) as [Hle|Hgt].
  - rewrite (Z.min_l (Z.of_nat a)) by lia. rewrite Nat2Z.id.
    destruct (decide (a + 6 <= length l)%nat) as [Hle6|Hgt6].
    + rewrite Z.min_l by lia. f_equal. lia.
    + rewrite Z.min_r by lia.
      rewrite !take_ge; [reflexivity | rewrite length_drop; lia | rewrite length_drop; lia].
  - rewrite (Z.min_r (Z.of_nat a)) by lia. rewrite Nat2Z.id.
    rewrite (drop_ge l a) by lia. rewrite (drop_ge l (length l)) by lia.
    now rewrite !take_nil.
Qed.

Lemma visibleResults_chunk {A} (results : list A) (i : nat) :
  visibleResults results (Z.of_nat (S i)) = take 6 (drop (6 * i) results).
Proof.
  unfold visibleResults, PAGE_SIZE.
  replace ((Z.of_nat (S i) - 1) * 6) with (Z.of_nat (6 * i)) by lia.
  apply slice_chunk.
Qed.

Lemma chunks_concat {A} (l : list A) (n : nat) :
  concat (map (visibleResults l) (page_numbers n)) = take (6 * n) l.
Proof.
  unfold page_numbers. induction n as [|n IH].
  - reflexivity.
  - rewrite seq_S, !map_app, concat_app, IH. cbn [map concat Nat.add].
    rewrite app_nil_r, visibleResults_chunk.
    rewrite take_take_drop. f_equal. lia.
Qed.

(** X5: there is always at least one page; Prev and Next keep the page
    between 1 and the number of pages, Prev does nothing on page 1 and Next
    nothing on the last page; and pressing Next [k] times from page 1 leads
    to page [1 + k], or to the last page when there are fewer. *)
Theorem page_stays_in_range (totalCount : option Z) (results_length p : Z) (k : nat) :
  1 <= pages totalCount results_length
  /\ (1 <= p <= pages totalCount results_length ->
      1 <= prevPage p <= pages totalCount results_length
      /\ 1 <= nextPage (pages totalCount results_length) p
           <= pages totalCount results_length)
  /\ prevPage 1 = 1
  /\ nextPage (pages totalCount results_length) (pages totalCount results_length)
     = pages totalCount results_length
  /\ Nat.iter k (nextPage (pages totalCount results_length)) 1
     = Z.min (pages totalCount results_length) (1 + Z.of_nat k).
Proof.
  assert (1 <= pages totalCount results_length) as H1 by (unfold pages; lia).
  assert (Nat.iter k (nextPage (pages totalCount results_length)) 1
          = Z.min (pages totalCount results_length) (1 + Z.of_nat k)) as Hiter.
  { induction k as [|k IH]; [cbn; lia|].
    rewrite Nat.iter_succ, IH. unfold nextPage. lia. }
  split; [exact H1|]. split; [unfold prevPage, nextPage; lia|].
  split; [reflexivity|]. split; [unfold nextPage; lia | exact Hiter].
Qed.

(** X6: the pages cut the results into consecutive pieces of six: put one
    after the other, pages 1 to the last give back the results; every page
    but the last holds six results, no page holds more, none is empty when
    there are results, and a page after the last is empty. *)
Theorem pages_cover_results {A} (results : list A) (totalCount : option Z) (p : Z) :
  totalCount = None \/ totalCount = Some (Z.of_nat (length results)) ->
  concat (map (visibleResults results)
            (page_numbers (Z.to_nat (pages totalCount (Z.of_nat (length results))))))
  = results
  /\ (1 <= p ->
      (length (visibleResults results p) <= 6)%nat
      /\ (p < pages totalCount (Z.of_nat (length results)) ->
          length (visibleResults results p) = 6%nat)
      /\ (p <= pages totalCount (Z.of_nat (length results)) -> results <> [] ->
          visibleResults results p <> [])
      /\ (pages totalCount (Z.of_nat (length results)) < p ->
          visibleResults results p = [])).
Proof.
  intros Htc.
  assert (pages totalCount (Z.of_nat (length results))
          = Z.max 1 (ceil_div (Z.of_nat (length results)) 6)) as Hp.
  { unfold pages, PAGE_SIZE. now destruct Htc as [-> | ->]. }
  rewrite Hp. clear Hp Htc.
  pose proof (ceil_div_bounds (Z.of_nat (length results))) as Hb.
  set (c := ceil_div (Z.of_nat (length results)) 6) in *.
  split.
  - rewrite chunks_concat. apply take_ge. lia.
  - intros H1. replace p with (Z.of_nat (S (Z.to_nat (p - 1)))) by lia.
    rewrite visibleResults_chunk.
    set (i := Z.to_nat (p - 1)).
    assert (Z.of_nat i = p - 1) as Hi by (unfold i; lia).
    rewrite length_take, length_drop.
    split; [lia|]. split; [intros Hlt; lia|]. split.
    + intros Hle Hne.
      assert (0 < length results)%nat as Hlen by (destruct results; [congruence | simpl; lia]).
      intros E. apply (f_equal length) in E.
      rewrite length_take, length_drop in E. cbn [length] in E. lia.
    + intros Hgt. apply length_zero_iff_nil. rewrite length_take, length_drop. lia.
Qed.

Lemma pages_cover_results_witness :
  concat (map (visibleResults (seq 1 14))
            (page_numbers (Z.to_nat (pages None (Z.of_nat (length (seq 1 14)))))))
  = seq 1 14
  /\ visibleResults (seq 1 14) 3 = [13; 14]%nat.
Proof.
  destruct (pages_cover_results (seq 1 14) None 3 (or_introl eq_refl)) as [Hall _].
  split; [exact Hall | reflexivity].
Defined.

Lemma page_stays_in_range_witness :
  1 <= prevPage 2 <= pages (Some 14) 14
  /\ Nat.iter 5 (nextPage (pages (Some 14) 14)) 1 = 3.
Proof.
  destruct (page_stays_in_range (Some 14) 14 2 5) as (_ & Hin & _ & _ & Hiter).
  split; [apply Hin; vm_compute; split; discriminate | exact Hiter].
Defined.

End PagingFacts.

(** ** What [highlightText] does to a text *)
Module HighlightFacts.
Import JS Handler SearchPage SearchPageView PageSpec ViewSpec JSFacts.

Section Marks.
Context `{Runtime}.

Lemma match_token_prefix (tok text m : jsstring) :
  match_token tok text = Some m -> exists rest, text = m ++ rest.
Proof.
  revert text m. induction tok as [|t tok IH]; intros text m.
  - destruct text; intros [= <-]; eexists; reflexivity.
  - destruct text as [|c text]; [discriminate|]. cbn [match_token].
    destruct (decide (canonicalize t = canonicalize c)); [|discriminate].
    destruct (match_token tok text) as [m'|] eqn:E; [|discriminate].
    intros [= <-]. destruct (IH _ _ E) as [rest ->]. now exists rest.
Qed.

Lemma match_alternation_token (tokens : list jsstring) (text m : jsstring) :
  match_alternation tokens text = Some m ->
  exists tok, tok ∈ tokens /\ match_token tok text = Some m.
Proof.
  induction tokens as [|tok tokens IH]; cbn [match_alternation]; [discriminate|].
  destruct (match_token tok text) as [m'|] eqn:E.
  - intros [= <-]. exists tok. split; [left | exact E].
  - intros Hm. destruct (IH Hm) as (tok' & Hin & Ht). exists tok'. split; [now right | exact Ht].
Qed.

Lemma replace_marks_skip (tokens : list jsstring) (passed rest : jsstring) :
  replace_marks tokens (length passed) (passed ++ rest) = replace_marks tokens 0 rest.
Proof. induction passed as [|c passed IH]; [reflexivity | exact IH]. Qed.

Lemma replace_marks_unfold (tokens : list jsstring) (text : jsstring) :
  replace_marks tokens 0 text =
    match match_alternation tokens text, text with
    | Some m, c :: rest =>
        mark m ++
        match m with
        | [] => c :: replace_marks tokens 0 rest
        | _ :: m' => replace_marks tokens (length m') rest
        end
    | Some m, [] => mark m
    | None, c :: rest => c :: replace_marks tokens 0 rest
    | None, [] => []
    end.
Proof. destruct text; reflexivity. Qed.

Lemma replace_marks_marked (tokens : list jsstring) (n : nat) (text : jsstring) :
  (length text <= n)%nat -> marked_by tokens text (replace_marks tokens 0 text).
Proof.
  revert text. induction n as [|n IH]; intros text Hlen; rewrite replace_marks_unfold.
  - destruct text; [|simpl in Hlen; lia].
    destruct (match_alternation tokens []) as [m|] eqn:E; [|constructor].
    destruct (match_alternation_token _ _ _ E) as (tok & Hin & Ht).
    destruct (match_token_prefix _ _ _ Ht) as [rest Hr].
    destruct m; [|discriminate]. rewrite <- (app_nil_r (mark [])).
    apply (marked_wrap tokens tok [] [] []); [exact Hin | exact Ht | constructor].
  - destruct (match_alternation tokens text) as [m|] eqn:E.
    + destruct (match_alternation_token _ _ _ E) as (tok & Hin & Ht).
      destruct (match_token_prefix _ _ _ Ht) as [rest ->].
      destruct m as [|x m'].
      * destruct rest as [|c rest]; cbn [app].
        -- rewrite <- (app_nil_r (mark [])).
           apply (marked_wrap tokens tok [] [] []); [exact Hin | exact Ht | constructor].
        -- apply (marked_wrap tokens tok [] (c :: rest)); [exact Hin | exact Ht|].
           apply marked_copy, IH. simpl in Hlen. lia.
      * cbn [app]. rewrite replace_marks_skip.
        apply (marked_wrap tokens tok (x :: m') rest); [exact Hin | exact Ht|].
        apply IH. rewrite length_app in Hlen. simpl in Hlen. lia.
    + destruct text as [|c rest]; [constructor|].
      apply marked_copy, IH. simpl in Hlen. lia.
Qed.

Lemma marked_by_refl (tokens : list jsstring) (text : jsstring) :
  marked_by tokens text text.
Proof. induction text; now constructor. Qed.

Lemma marked_by_sublist (tokens : list jsstring) (text out : jsstring) :
  marked_by tokens text out -> text `sublist_of` out.
Proof.
  induction 1 as [|c text out _ IH|tok m text out _ _ _ IH].
  - constructor.
  - now apply sublist_skip.
  - unfold mark. rewrite <- !app_assoc. apply sublist_inserts_l.
    apply sublist_app; [reflexivity|]. now apply sublist_inserts_l.
Qed.

(** X7: [highlightText] only wraps: what it returns is the text with
    pieces of it put between [<mark>] and [</mark>], each piece what a token
    of the query matches where it stands; no code unit of the text is
    dropped, changed or moved, so the text is a subsequence of the result. *)
Theorem highlightText_only_wraps (text query : jsstring) :
  marked_by (tokens_of query) text (highlightText text query)
  /\ text `sublist_of` highlightText text query
  /\ (length text <= length (highlightText text query))%nat.
Proof.
  assert (marked_by (tokens_of query) text (highlightText text query)) as Hm.
  { unfold highlightText.
    destruct (negb (truthy_string text) || negb (truthy_string query));
      [apply marked_by_refl|].
    fold (tokens_of query).
    destruct (length (tokens_of query) =? 0)%nat; [apply marked_by_refl|].
    now apply replace_marks_marked with (length text). }
  split; [exact Hm|]. apply marked_by_sublist in Hm.
  split; [exact Hm | now apply sublist_length].
Qed.

Lemma replace_marks_no_match (tokens : list jsstring) (text : jsstring) :
  (forall n, match_alternation tokens (drop n text) = None) ->
  replace_marks tokens 0 text = text.
Proof.
  induction text as [|c text IH]; intros Hno; rewrite replace_marks_unfold;
    pose proof (Hno 0%nat) as H0; rewrite drop_0 in H0; rewrite H0.
  - reflexivity.
  - f_equal. apply IH. intros n. exact (Hno (S n)).
Qed.

(** X8: a text in which no token of the query matches at any place is
    returned as it is, whatever it holds. *)
Theorem highlightText_no_match (text query : jsstring) :
  (forall n, match_alternation (tokens_of query) (drop n text) = None) ->
  highlightText text query = text.
Proof.
  intros Hno. unfold highlightText.
  destruct (negb (truthy_string text) || negb (truthy_string query)); [reflexivity|].
  fold (tokens_of query).
  destruct (length (tokens_of query) =? 0)%nat; [reflexivity|].
  now apply replace_marks_no_match.
Qed.

Lemma split_ws_from_pieces (s cur : jsstring) (in_gap : bool) :
  no_white_space (rev cur) ->
  split_ws_from cur in_gap s <> []
  /\ Forall no_white_space (split_ws_from cur in_gap s).
Proof.
  revert cur in_gap. induction s as [|c s IH]; intros cur g Hcur; cbn [split_ws_from].
  - split; [discriminate | now repeat constructor].
  - destruct (is_white_space c) eqn:Ec.
    + destruct g; [now apply IH|].
      destruct (IH [] true) as [_ Hall]; [constructor|].
      split; [discriminate | now constructor].
    + apply IH. cbn [rev]. apply Forall_app. split; [exact Hcur | now repeat constructor].
Qed.

Lemma unique_from_spec (seen xs : list jsstring) :
  NoDup (unique_from seen xs)
  /\ (forall x, x ∈ unique_from seen xs -> x ∈ xs /\ x ∉ seen).
Proof.
  revert seen. induction xs as [|x xs IH]; intros seen; cbn [unique_from].
  - split; [constructor | intros x Hx; inversion Hx].
  - destruct (decide (x ∈ seen)) as [Hin|Hin].
    + destruct (IH seen) as [Hnd Hel]. split; [exact Hnd|].
      intros y Hy. destruct (Hel y Hy). split; [now right | assumption].
    + destruct (IH (x :: seen)) as [Hnd Hel]. split.
      * apply NoDup_cons. split; [|exact Hnd].
        intros Hx. destruct (Hel x Hx) as [_ Hout]. apply Hout. left.
      * intros y Hy. apply elem_of_cons in Hy as [->|Hy]; [split; [left | exact Hin]|].
        destruct (Hel y Hy) as [Hxs Hout]. split; [now right|].
        intros Hs. apply Hout. now right.
Qed.

Lemma replace_marks_empty_token (text : jsstring) :
  replace_marks [[]] 0 text = empty_marks text.
Proof.
  unfold empty_marks. induction text as [|c text IH]; [reflexivity|].
  rewrite replace_marks_unfold. cbn [match_alternation match_token map concat].
  rewrite IH. now rewrite <- !app_assoc.
Qed.

(** X16: the tokens [highlightText] makes of a query are never none, so the
    test for an empty list of tokens never succeeds; no token is there
    twice and none holds white space.  For a query that is not empty but
    blank the only token is the empty text, and a text that is not empty
    comes back with an empty mark before each of its code units and one at
    its end. *)
Theorem tokens_never_none (query text : jsstring) :
  tokens_of query <> []
  /\ NoDup (tokens_of query)
  /\ Forall no_white_space (tokens_of query)
  /\ (toLowerCase [] = [] -> trim query = [] ->
      tokens_of query = [[]]
      /\ (text <> [] -> query <> [] -> highlightText text query = empty_marks text)).
Proof.
  unfold tokens_of at 1 2 3. unfold unique, split_ws.
  destruct (split_ws_from_pieces (toLowerCase (trim query)) [] false) as [Hne Hall];
    [constructor|].
  destruct (unique_from_spec [] (split_ws_from [] false (toLowerCase (trim query))))
    as [Hnd Hel].
  split.
  { destruct (split_ws_from [] false (toLowerCase (trim query))) as [|x xs];
      [congruence | discriminate]. }
  split; [exact Hnd|]. split.
  { apply Forall_forall. intros x Hx. destruct (Hel x Hx) as [Hin _].
    rewrite Forall_forall in Hall. now apply Hall. }
  intros Hlow Hblank.
  assert (tokens_of query = [[]]) as Htok.
  { unfold tokens_of. rewrite Hblank, Hlow. reflexivity. }
  split; [exact Htok|]. intros Ht Hq.
  unfold highlightText. apply truthy_string_true in Ht, Hq. rewrite Ht, Hq. cbn [negb orb].
  fold (tokens_of query). rewrite Htok. cbn [length Nat.eqb].
  apply replace_marks_empty_token.
Qed.

End Marks.

Lemma tokens_never_none_witness :
  tokens_of (H := Demo.runtime) (lit "  ") = [[]]
  /\ highlightText (H := Demo.runtime) (lit "ab") (lit "  ")
     = lit "<mark></mark>a<mark></mark>b<mark></mark>".
Proof.
  destruct (tokens_never_none (H := Demo.runtime) (lit "  ") (lit "ab"))
    as (_ & _ & _ & Hblank).
  destruct (Hblank eq_refl eq_refl) as [Htok Hout].
  split; [exact Htok | apply Hout; discriminate].
Defined.

Lemma highlightText_no_match_witness :
  highlightText (H := Demo.runtime) (lit "<b>Plant growth</b>") (lit "bone mice")
  = lit "<b>Plant growth</b>".
Proof.
  apply (highlightText_no_match (H := Demo.runtime)).
  intros n.
  do 20 (destruct n as [|n]; [vm_compute; reflexivity|]).
  rewrite drop_ge by (vm_compute; lia). reflexivity.
Defined.

End HighlightFacts.

(** ** The modal, the link and the paragraphs *)
Module ViewFacts.
Import JS Handler SearchPage SearchPageView PageSpec ViewSpec JSFacts.
Import SearchPageFacts.

Section Modal.
Context `{Runtime} (server : Server).

Lemma same_search_refl (a : State) : same_search a a.
Proof. now repeat split. Qed.

Lemma same_search_trans (a b c : State) :
  same_search a b -> same_search b c -> same_search a c.
Proof. unfold same_search. intuition congruence. Qed.

Lemma opening_same (a b : State) : same_search a b -> opening a = opening b.
Proof.
  destruct a, b. unfold same_search, opening. cbn.
  intros (-> & -> & -> & -> & -> & ->). reflexivity.
Qed.

Lemma opening_same_search (a : State) : same_search a (opening a).
Proof. now repeat split. Qed.

Lemma paper_outcome_same_search (answer : thrown + Response) (a : State) :
  same_search a (paper_outcome answer a).1.
Proof.
  unfold paper_outcome. destruct answer as [t|resp]; [now repeat split|].
  destruct (ok resp); [destruct (json_body resp); now repeat split|].
  destruct (status resp =? 404); now repeat split.
Qed.

Lemma summary_outcome_same_search (answer : thrown + Response) (a : State) :
  same_search a (summary_outcome answer a).
Proof.
  unfold summary_outcome. destruct answer as [t|resp]; [now repeat split|].
  destruct (ok resp); [|destruct (status resp =? 404); now repeat split].
  destruct (json_body resp) as [t|j]; [now repeat split|].
  destruct (member (lit "summary") j); now repeat split.
Qed.

Lemma openPaper_same_search (paperId : jsstring) (st : State) :
  same_search st (final_state (openPaper server paperId) st).
Proof.
  unfold final_state.
  destruct (encodeURIComponent (cleanId paperId)) as [msg|enc] eqn:Henc.
  - rewrite (openPaper_unencodable _ _ msg _ Henc). now repeat split.
  - rewrite (openPaper_run _ _ enc _ Henc). cbn [fst snd].
    eapply same_search_trans; [apply opening_same_search|].
    eapply same_search_trans; [apply paper_outcome_same_search|].
    apply summary_outcome_same_search.
Qed.

Lemma openPaper_from_same (paperId : jsstring) (a b : State) :
  same_search a b ->
  final_state (openPaper server paperId) a = final_state (openPaper server paperId) b.
Proof.
  intros Hab. apply opening_same in Hab. unfold final_state.
  destruct (encodeURIComponent (cleanId paperId)) as [msg|enc] eqn:Henc.
  - rewrite !(openPaper_unencodable _ _ msg _ Henc). cbn [fst snd]. now rewrite Hab.
  - rewrite !(openPaper_run _ _ enc _ Henc). cbn [fst snd]. now rewrite Hab.
Qed.

(** X9: [closeModal] hides the modal and leaves the search as it was, and
    [openPaper] leaves the search as it was too; what [openPaper] leaves
    does not depend on what the modal held before: opening a paper after
    closing the modal, or after opening any other paper, ends in the same
    state as opening it at once. *)
Theorem openPaper_forgets_modal (paperId other : jsstring) (st : State) :
  showModal (final_state closeModal st) = false
  /\ same_search st (final_state closeModal st)
  /\ same_search st (final_state (openPaper server paperId) st)
  /\ final_state (openPaper server paperId) (final_state closeModal st)
     = final_state (openPaper server paperId) st
  /\ final_state (openPaper server paperId) (final_state (openPaper server other) st)
     = final_state (openPaper server paperId) st.
Proof.
  assert (same_search st (final_state closeModal st)) as Hc by now repeat split.
  split; [reflexivity|]. split; [exact Hc|].
  split; [apply openPaper_same_search|].
  split; symmetry; apply openPaper_from_same; [exact Hc | apply openPaper_same_search].
Qed.

End Modal.

(** *** [copyLink] *)

Section Link.
Context `{Runtime} (clipboard : Clipboard).

Lemma article_link_usable (w : jsstring) :
  truthy_string (lit "https://www.ncbi.nlm.nih.gov/pmc/articles/" ++ w ++ lit "/") = true
  /\ lit "https://www.ncbi.nlm.nih.gov/pmc/articles/" ++ w ++ lit "/" <> lit "#".
Proof. split; [reflexivity | discriminate]. Qed.

Lemma copyLink_cases (paperId : option jsstring) :
  (copyLink clipboard paperId = [Alert (lit "Unable to copy link.")]
   /\ getPaperLink paperId = lit "#")
  \/ exists w,
       getPaperLink paperId = lit "https://www.ncbi.nlm.nih.gov/pmc/articles/" ++ w ++ lit "/"
       /\ copyLink clipboard paperId =
          [ClipboardWrite (getPaperLink paperId);
           Alert (match clipboard (getPaperLink paperId) with
                  | inr _ => lit "Copied original article link to clipboard."
                  | inl _ => lit "Unable to copy link."
                  end)].
Proof.
  unfold copyLink. destruct paperId as [id|]; [|left; now split].
  rewrite getPaperLink_match. destruct (match_pmc id) as [w|]; [|left; now split].
  right. exists w. split; [reflexivity|].
  destruct (article_link_usable w) as [-> Hne]. cbn [negb orb].
  destruct (decide _) as [E|_]; [now destruct Hne|].
  destruct (clipboard _); reflexivity.
Qed.

(** X10: [copyLink] ends with exactly one alert.  For an id in which
    [/PMC\d+/i] matches it tries to write the article link of the first
    match, and says Copied only when that write succeeded; for an absent id
    or one without a match it writes nothing and says Unable to copy; it
    never writes the placeholder [#]. *)
Theorem copyLink_writes_article_link (paperId : option jsstring) :
  (forall id w, paperId = Some id -> first_pmc id w ->
     copyLink clipboard paperId =
       [ClipboardWrite (lit "https://www.ncbi.nlm.nih.gov/pmc/articles/" ++ w ++ lit "/");
        Alert (match clipboard (lit "https://www.ncbi.nlm.nih.gov/pmc/articles/"
                                  ++ w ++ lit "/") with
               | inr _ => lit "Copied original article link to clipboard."
               | inl _ => lit "Unable to copy link."
               end)])
  /\ (paperId = None \/ (exists id, paperId = Some id /\ no_pmc id) ->
      copyLink clipboard paperId = [Alert (lit "Unable to copy link.")])
  /\ (forall t, ClipboardWrite t ∈ copyLink clipboard paperId -> t <> lit "#" /\ t <> [])
  /\ (Alert (lit "Copied original article link to clipboard.") ∈ copyLink clipboard paperId ->
      exists t, ClipboardWrite t ∈ copyLink clipboard paperId /\ clipboard t = inr tt)
  /\ length (alerts (copyLink clipboard paperId)) = 1%nat.
Proof.
  split.
  { intros id w -> Hw. apply first_pmc_match in Hw.
    destruct (copyLink_cases (Some id)) as [[_ E]|(w' & E & ->)];
      rewrite getPaperLink_match, Hw in E.
    - now destruct (article_link_usable w) as [_ Hne].
    - now rewrite getPaperLink_match, Hw. }
  split.
  { intros [-> | (id & -> & Hno)]; [reflexivity|].
    apply no_pmc_match in Hno.
    destruct (copyLink_cases (Some id)) as [[E _]|(w' & E & _)]; [exact E|].
    rewrite getPaperLink_match, Hno in E. discriminate E. }
  destruct (copyLink_cases paperId) as [[-> _]|(w & E & ->)].
  - split; [intros t Ht; apply list_elem_of_singleton in Ht; discriminate|].
    split; [intros Ha; apply list_elem_of_singleton in Ha; discriminate|]. reflexivity.
  - rewrite E. destruct (article_link_usable w) as [Ht Hne].
    split.
    { intros t Hin. apply elem_of_cons in Hin as [[= ->]|Hin].
      - split; [exact Hne | discriminate].
      - apply list_elem_of_singleton in Hin. discriminate. }
    split; [|reflexivity].
    intros Hin. apply elem_of_cons in Hin as [Hin|Hin]; [discriminate|].
    apply list_elem_of_singleton in Hin.
    destruct (clipboard _) as [t|[]] eqn:Ec; [discriminate|].
    eexists. split; [left | exact Ec].
Qed.

End Link.

Lemma copyLink_writes_article_link_witness :
  copyLink (H := Demo.runtime) open_clipboard (Some (lit "pmc100v2"))
  = [ClipboardWrite (lit "https://www.ncbi.nlm.nih.gov/pmc/articles/pmc100/");
     Alert (lit "Copied original article link to clipboard.")]
  /\ copyLink (H := Demo.runtime) closed_clipboard (Some (lit "doi:10.1/x"))
     = [Alert (lit "Unable to copy link.")].
Proof.
  destruct (copyLink_writes_article_link (H := Demo.runtime) open_clipboard
              (Some (lit "pmc100v2"))) as (Hfirst & _).
  destruct (copyLink_writes_article_link (H := Demo.runtime) closed_clipboard
              (Some (lit "doi:10.1/x"))) as (_ & Hnone & _).
  split.
  - apply (Hfirst (lit "pmc100v2") (lit "pmc100") eq_refl).
    apply (match_pmc_some (H := Demo.runtime)). vm_compute. reflexivity.
  - apply Hnone. right. exists (lit "doi:10.1/x"). split; [reflexivity|].
    apply (match_pmc_none (H := Demo.runtime)). vm_compute. reflexivity.
Defined.

End ViewFacts.

(** ** The paragraphs of a summary *)
Module ParagraphFacts.
Import JS SearchPageView ViewSpec.

Lemma no_dot_space_snoc (l : jsstring) (c : char16) :
  no_dot_space l ->
  match last l with Some x => ~ (x = 46 /\ is_white_space c = true) | None => True end ->
  no_dot_space (l ++ [c]).
Proof.
  induction l as [|a l IH]; [easy|].
  destruct l as [|b l]; cbn [app no_dot_space last] in *.
  - intros _ Hlast. now split.
  - intros [Hab Hrest] Hlast. split; [exact Hab|]. now apply IH.
Qed.

Lemma last_rev_head (cur : jsstring) : last (rev cur) = head cur.
Proof. destruct cur as [|c cur]; [reflexivity|]. cbn [rev head]. apply last_snoc. Qed.

Lemma ink_white (c : char16) (s : jsstring) :
  is_white_space c = true -> ink (c :: s) = ink s.
Proof.
  intros Hc. unfold ink. rewrite filter_cons.
  destruct (decide (is_white_space c = false)); [congruence | reflexivity].
Qed.

Lemma ink_app (a b : jsstring) : ink (a ++ b) = ink a ++ ink b.
Proof. apply filter_app. Qed.

Lemma paragraphs_from_clean (s cur : jsstring) (after_dot in_run : bool) :
  (in_run = true -> cur = []) ->
  (head cur = Some 46 -> after_dot = true) ->
  no_line_feed (rev cur) -> no_dot_space (rev cur) ->
  Forall no_line_feed (paragraphs_from cur after_dot in_run s)
  /\ Forall no_dot_space (paragraphs_from cur after_dot in_run s).
Proof.
  revert cur after_dot in_run.
  induction s as [|c s IH]; intros cur ad ir Hrun Hdot Hlf Hds; cbn [paragraphs_from].
  - split; now repeat constructor.
  - destruct (ir && is_white_space c) eqn:E1.
    { apply andb_true_iff in E1 as [-> _]. rewrite (Hrun eq_refl) in *.
      apply IH; try easy. }
    destruct (c =? 10) eqn:E2.
    { destruct (IH [] false false) as [H1 H2]; try easy; [constructor|].
      split; now constructor. }
    destruct (ad && is_white_space c) eqn:E3.
    { destruct (IH [] false true) as [H1 H2]; try easy; [constructor|].
      split; now constructor. }
    apply IH.
    + discriminate.
    + cbn [head]. intros [= ->]. reflexivity.
    + cbn [rev]. apply Forall_app. split; [exact Hlf|].
      constructor; [|constructor]. now apply N.eqb_neq.
    + cbn [rev]. apply no_dot_space_snoc; [exact Hds|].
      rewrite last_rev_head. destruct cur as [|x cur]; [exact I|]. cbn [head].
      intros [-> Hw]. rewrite (Hdot eq_refl), Hw in E3. discriminate.
Qed.

Lemma paragraphs_from_ink (s cur : jsstring) (after_dot in_run : bool) :
  ink (concat (paragraphs_from cur after_dot in_run s)) = ink (rev cur ++ s)
  /\ concat (paragraphs_from cur after_dot in_run s) `sublist_of` rev cur ++ s.
Proof.
  revert cur after_dot in_run.
  induction s as [|c s IH]; intros cur ad ir; cbn [paragraphs_from].
  - cbn [concat]. split; reflexivity.
  - destruct (ir && is_white_space c) eqn:E1.
    { apply andb_true_iff in E1 as [_ Hw]. destruct (IH cur false true) as [Hi Hs].
      split.
      - rewrite Hi, !ink_app. now rewrite (ink_white c s Hw).
      - etransitivity; [exact Hs|]. apply sublist_app; [reflexivity|].
        now apply sublist_cons. }
    destruct (c =? 10) eqn:E2.
    { apply N.eqb_eq in E2. subst c. destruct (IH [] false false) as [Hi Hs].
      cbn [concat rev app] in *. split.
      - rewrite !ink_app, Hi. now rewrite (ink_white 10 s eq_refl).
      - apply sublist_app; [reflexivity|]. now apply sublist_cons. }
    destruct (ad && is_white_space c) eqn:E3.
    { apply andb_true_iff in E3 as [_ Hw]. destruct (IH [] false true) as [Hi Hs].
      cbn [concat rev app] in *. split.
      - rewrite !ink_app, Hi. now rewrite (ink_white c s Hw).
      - apply sublist_app; [reflexivity|]. now apply sublist_cons. }
    destruct (IH (c :: cur) (c =? 46) false) as [Hi Hs].
    cbn [rev] in Hi, Hs. rewrite <- app_assoc in Hi, Hs. now split.
Qed.

Lemma paragraphs_from_some (s cur : jsstring) (after_dot in_run : bool) :
  paragraphs_from cur after_dot in_run s <> [].
Proof.
  revert cur after_dot in_run. induction s as [|c s IH]; intros cur ad ir;
    cbn [paragraphs_from]; [discriminate|].
  destruct (ir && is_white_space c); [apply IH|].
  destruct (c =? 10); [discriminate|].
  destruct (ad && is_white_space c); [discriminate | apply IH].
Qed.

(** X11: the paragraphs of a summary hold all of its text but white
    space: no paragraph holds a line feed, in no paragraph is a period
    followed by white space, the paragraphs in order are a subsequence of
    the summary, and what they leave out is white space only; there is
    always at least one paragraph. *)
Theorem paragraphs_keep_the_text (summary : jsstring) :
  Forall no_line_feed (paragraphs summary)
  /\ Forall no_dot_space (paragraphs summary)
  /\ concat (paragraphs summary) `sublist_of` summary
  /\ ink (concat (paragraphs summary)) = ink summary
  /\ paragraphs summary <> [].
Proof.
  unfold paragraphs.
  destruct (paragraphs_from_clean summary [] false false) as [Hlf Hds];
    try easy; [constructor|].
  destruct (paragraphs_from_ink summary [] false false) as [Hi Hs].
  repeat split; try assumption. apply paragraphs_from_some.
Qed.

(** The split at work: two spaces after a period, then a space and a line
    feed after a period. *)
Example paragraphs_sample :
  paragraphs sample_summary
  = [lit "Bones weaken."; lit "Mice show it."; lit "More data is needed."].
Proof. vm_compute. reflexivity. Qed.

(** A line feed that follows a period is a separator of its own, and the
    white space after it stays in the next paragraph. *)
Example paragraphs_line_feed_first :
  paragraphs (lit "a." ++ [10; 10; 32] ++ lit "b")
  = [lit "a."; []; lit " b"].
Proof. vm_compute. reflexivity. Qed.

End ParagraphFacts.

(** ** What the requests of the pages leave *)
Module RequestFacts.
Import JS Handler SearchPage PageSpec ViewSpec JSFacts.
Import SearchPageFacts FormFacts.

Section Requests.
Context `{Runtime} (server : Server).

Lemma summary_outcome_paper (answer : thrown + Response) (st : State) :
  selectedPaper (summary_outcome answer st) = selectedPaper st
  /\ paperError (summary_outcome answer st) = paperError st
  /\ paperLoading (summary_outcome answer st) = paperLoading st.
Proof.
  unfold summary_outcome. destruct answer as [t|resp]; [now repeat split|].
  destruct (ok resp); [|destruct (status resp =? 404); now repeat split].
  destruct (json_body resp) as [t|j]; [now repeat split|].
  destruct (member (lit "summary") j); now repeat split.
Qed.

(** X15: after [openPaper] the paper is no longer loading, and the modal
    holds either the parsed body of an OK paper response and no error, or
    no paper and an error: Paper not found on server for status 404, Paper
    API error with the status for another status that is not OK, and the
    message of the failure when the request, the reading of the body or the
    encoding of the id fails.  The summary request changes none of this. *)
Theorem openPaper_reads_paper (paperId : jsstring) (st : State) :
  paperLoading (final_state (openPaper server paperId) st) = false
  /\ (forall msg,
      encodeURIComponent (cleanId paperId) = inl msg ->
      selectedPaper (final_state (openPaper server paperId) st) = VNull
      /\ paperError (final_state (openPaper server paperId) st) = Some msg)
  /\ (forall enc resp j,
      encodeURIComponent (cleanId paperId) = inr enc ->
      server (plain_get (paper_url enc)) = inr resp ->
      ok resp = true -> json_body resp = inr j ->
      selectedPaper (final_state (openPaper server paperId) st) = j
      /\ paperError (final_state (openPaper server paperId) st) = None)
  /\ (forall enc resp,
      encodeURIComponent (cleanId paperId) = inr enc ->
      server (plain_get (paper_url enc)) = inr resp ->
      ok resp = false ->
      selectedPaper (final_state (openPaper server paperId) st) = VNull
      /\ paperError (final_state (openPaper server paperId) st)
         = Some (if status resp =? 404 then lit "Paper not found on server"
                 else lit "Paper API error: " ++ of_N (status resp)))
  /\ (forall enc resp t,
      encodeURIComponent (cleanId paperId) = inr enc ->
      server (plain_get (paper_url enc)) = inr resp ->
      ok resp = true -> json_body resp = inl t ->
      selectedPaper (final_state (openPaper server paperId) st) = VNull
      /\ paperError (final_state (openPaper server paperId) st)
         = Some (message_or t (lit "Failed to load paper")))
  /\ (forall enc t,
      encodeURIComponent (cleanId paperId) = inr enc ->
      server (plain_get (paper_url enc)) = inl t ->
      selectedPaper (final_state (openPaper server paperId) st) = VNull
      /\ paperError (final_state (openPaper server paperId) st)
         = Some (message_or t (lit "Failed to load paper"))).
Proof.
  unfold final_state.
  destruct (encodeURIComponent (cleanId paperId)) as [msg|enc] eqn:Henc.
  { rewrite (openPaper_unencodable _ _ msg _ Henc). cbn [fst snd].
    split; [reflexivity|]. split; [now intros ? [= <-]|].
    repeat split; intros; discriminate. }
  rewrite (openPaper_run _ _ enc _ Henc). cbn [fst snd].
  destruct (summary_outcome_paper (server (plain_get (summary_url enc)))
              (paper_outcome (server (plain_get (paper_url enc))) (opening st)).1)
    as (-> & -> & ->).
  unfold paper_outcome.
  split.
  { destruct (server (plain_get (paper_url enc))) as [t|resp]; [reflexivity|].
    destruct (ok resp); [destruct (json_body resp); reflexivity|].
    destruct (status resp =? 404); reflexivity. }
  split; [intros; discriminate|].
  split; [intros enc' resp j [= <-] -> Hk Hj; rewrite Hk, Hj; now split|].
  split.
  { intros enc' resp [= <-] -> Hk. rewrite Hk. destruct (status resp =? 404); now split. }
  split; [intros enc' resp t [= <-] -> Hk Hj; rewrite Hk, Hj; now split|].
  intros enc' t [= <-] ->. now split.
Qed.

(** X14: after a search with a query that is not blank, whenever the page
    holds an array of results the count it holds is the length of that
    array, on every path: a failed search leaves no results and the count
    0, an answer without results leaves the empty array and the count 0. *)
Theorem handleSearch_count_in_step (e : option unit) (st : State) (items : list value) :
  trim (query st) <> [] ->
  results (final_state (handleSearch server e) st) = VArr items ->
  totalCount (final_state (handleSearch server e) st) = num_of_nat (length items).
Proof.
  intros Hq. unfold final_state.
  assert (forall msg, results (search_failed msg (search_started st)) = VArr items ->
          totalCount (search_failed msg (search_started st)) = num_of_nat (length items))
    as Hfail.
  { intros msg [= <-]. reflexivity. }
  destruct (encodeURIComponent (query st)) as [msg|enc] eqn:Henc.
  - apply truthy_string_true in Hq.
    unfold run, handleSearch. run_handler.
    destruct e; cbn [fst snd]; rewrite Hq; cbn [negb fst snd]; rewrite Henc;
      apply (Hfail msg).
  - rewrite (handleSearch_run _ e st enc Hq Henc). cbn [fst snd].
    unfold search_outcome.
    destruct (server (json_get (search_url enc))) as [t|resp]; [apply Hfail|].
    destruct (ok resp); [|apply Hfail].
    destruct (json_body resp) as [t|data]; [apply Hfail|].
    destruct (member (lit "results") data) as [found|]; [|apply Hfail].
    cbn. intros ->. reflexivity.
Qed.

End Requests.

Lemma handleSearch_count_in_step_witness :
  totalCount
    (final_state (handleSearch (H := Demo.runtime) two_results_server None) typed_search)
  = num_of_nat 2.
Proof.
  apply (handleSearch_count_in_step (H := Demo.runtime) two_results_server None typed_search
           [VObj [(lit "score", VNum 1)]; VObj [(lit "score", VNum 0.5)]]).
  - vm_compute. discriminate.
  - vm_compute. reflexivity.
Defined.

Lemma openPaper_reads_paper_witness :
  selectedPaper
    (final_state (openPaper (H := Demo.runtime) missing_server (lit "PMC100")) initial)
  = VNull
  /\ paperError
       (final_state (openPaper (H := Demo.runtime) missing_server (lit "PMC100")) initial)
     = Some (lit "Paper not found on server").
Proof.
  destruct (openPaper_reads_paper (H := Demo.runtime) missing_server (lit "PMC100") initial)
    as (_ & _ & _ & Hbad & _).
  exact (Hbad (lit "PMC100") _ eq_refl eq_refl eq_refl).
Defined.

End RequestFacts.

(** ** [api.js] *)
Module ApiFacts.
Import JS Handler PageSpec ViewSpec Api.

Section Helpers.
Context `{Runtime} (server : Server).

Lemma get_json_run (name url : jsstring) (v : value) :
  ((run (resp ← fetch server (plain_get url); body_or_throw name resp) tt).1 = inr v
   <-> answers_ok server (plain_get url) v)
  /\ effects (resp ← fetch server (plain_get url); body_or_throw name resp) tt
     = [Fetch (plain_get url)]
  /\ (forall resp, server (plain_get url) = inr resp -> ok resp = false ->
      (run (resp ← fetch server (plain_get url); body_or_throw name resp) tt).1
      = inl (ThrownError (name ++ lit " error " ++ of_N (status resp)))).
Proof.
  unfold effects, run, body_or_throw, answers_ok. run_handler.
  destruct (server (plain_get url)) as [t|resp] eqn:Es; cbn [fst snd].
  - split; [split; [discriminate | now intros (resp & [=] & _)]|].
    split; [reflexivity | discriminate].
  - destruct (ok resp) eqn:Ek; cbn [negb fst snd].
    + split.
      * split.
        -- destruct (json_body resp) as [t|j] eqn:Ej; [discriminate|].
           intros [= <-]. now exists resp.
        -- intros (resp' & [= <-] & _ & ->). reflexivity.
      * split; [destruct (json_body resp); reflexivity|].
        intros resp' [= <-]. congruence.
    + split.
      * split; [discriminate|]. intros (resp' & [= <-] & Hk & _). congruence.
      * split; [reflexivity|]. now intros resp' [= <-] _.
Qed.

(** X12: each helper of [api.js] sends one GET request and returns a value
    exactly when the response is OK and its body parses, the value being
    the parsed body; on a response that is not OK it throws an error that
    names the helper and the status; a text that cannot be encoded throws
    before any request ([searchQuery] asks for 5 results and [qaQuery] for
    10 when [k] is not given). *)
Theorem api_helpers_return_ok_bodies (text : jsstring) (k : option N) (v : value) :
  (forall msg, encodeURIComponent text = inl msg ->
     run (searchQuery server text k) tt = (inl (ThrownError msg), (tt, []))
     /\ run (qaQuery server text k) tt = (inl (ThrownError msg), (tt, [])))
  /\ (forall enc, encodeURIComponent text = inr enc ->
      ((run (searchQuery server text k) tt).1 = inr v
       <-> answers_ok server (plain_get (api_search_url enc k)) v)
      /\ effects (searchQuery server text k) tt = [Fetch (plain_get (api_search_url enc k))]
      /\ (forall resp, server (plain_get (api_search_url enc k)) = inr resp ->
          ok resp = false ->
          (run (searchQuery server text k) tt).1
          = inl (ThrownError (lit "Search error " ++ of_N (status resp)))))
  /\ (forall enc, encodeURIComponent text = inr enc ->
      ((run (qaQuery server text k) tt).1 = inr v
       <-> answers_ok server (plain_get (api_qa_url enc k)) v)
      /\ effects (qaQuery server text k) tt = [Fetch (plain_get (api_qa_url enc k))]
      /\ (forall resp, server (plain_get (api_qa_url enc k)) = inr resp ->
          ok resp = false ->
          (run (qaQuery server text k) tt).1
          = inl (ThrownError (lit "QA error " ++ of_N (status resp)))))
  /\ ((run (healthCheck server) tt).1 = inr v
      <-> answers_ok server (plain_get (lit "/health")) v)
  /\ effects (healthCheck server) tt = [Fetch (plain_get (lit "/health"))]
  /\ (forall resp, server (plain_get (lit "/health")) = inr resp -> ok resp = false ->
      (run (healthCheck server) tt).1
      = inl (ThrownError (lit "Health error " ++ of_N (status resp)))).
Proof.
  split.
  { intros msg Henc. unfold run, searchQuery, qaQuery. run_handler.
    rewrite Henc. now split. }
  split.
  { intros enc Henc.
    assert (forall w, searchQuery server text k w
                      = (resp ← fetch server (plain_get (api_search_url enc k));
                         body_or_throw (lit "Search") resp) w) as E.
    { intros w. unfold searchQuery, api_search_url, call. rewrite Henc. reflexivity. }
    unfold effects, run. rewrite E.
    exact (get_json_run (lit "Search") (api_search_url enc k) v). }
  split.
  { intros enc Henc.
    assert (forall w, qaQuery server text k w
                      = (resp ← fetch server (plain_get (api_qa_url enc k));
                         body_or_throw (lit "QA") resp) w) as E.
    { intros w. unfold qaQuery, api_qa_url, call. rewrite Henc. reflexivity. }
    unfold effects, run. rewrite E.
    exact (get_json_run (lit "QA") (api_qa_url enc k) v). }
  exact (get_json_run (lit "Health") (lit "/health") v).
Qed.

End Helpers.

Lemma api_helpers_return_ok_bodies_witness :
  (run (searchQuery (H := Demo.runtime) missing_server (lit "bone loss") None) tt).1
  = inl (ThrownError (lit "Search error 404"))
  /\ effects (searchQuery (H := Demo.runtime) missing_server (lit "bone loss") None) tt
     = [Fetch (plain_get (lit "/search?q=bone%20loss&k=5"))].
Proof.
  destruct (api_helpers_return_ok_bodies (H := Demo.runtime) missing_server
              (lit "bone loss") None VNull) as (_ & Hsearch & _).
  destruct (Hsearch (lit "bone%20loss") eq_refl) as (_ & Heff & Hbad).
  split; [exact (Hbad _ eq_refl eq_refl) | exact Heff].
Defined.

End ApiFacts.

(** ** The paper page *)
Module PaperPageFacts.
Import JS Handler PageSpec ViewSpec.

(** X13: the paper page sends one request, to the address made of the route
    parameter as it is; it takes the parsed body of the response as the
    paper whatever the status; when the request is rejected or the body does
    not parse the rejection reaches no handler and the paper is left as it
    was, so a page that was loading keeps showing Loading. *)
Theorem paper_page_takes_any_body (server : Server) (paperId : option jsstring)
    (paper : value) :
  effects (PaperPage.loadPaper server paperId) paper
  = [Fetch (plain_get (lit "/paper/" ++ PaperPage.shown paperId))]
  /\ (forall resp data,
      server (plain_get (lit "/paper/" ++ PaperPage.shown paperId)) = inr resp ->
      json_body resp = inr data ->
      run (PaperPage.loadPaper server paperId) paper
      = (inr tt, (data, [Fetch (plain_get (lit "/paper/" ++ PaperPage.shown paperId))])))
  /\ (forall t,
      server (plain_get (lit "/paper/" ++ PaperPage.shown paperId)) = inl t
      \/ (exists resp,
            server (plain_get (lit "/paper/" ++ PaperPage.shown paperId)) = inr resp
            /\ json_body resp = inl t) ->
      (run (PaperPage.loadPaper server paperId) paper).1 = inl t
      /\ final_state (PaperPage.loadPaper server paperId) paper = paper
      /\ (paper = VNull ->
          PaperPage.shows_loading (final_state (PaperPage.loadPaper server paperId) paper)
          = true)).
Proof.
  unfold effects, final_state, run, PaperPage.loadPaper. run_handler.
  destruct (server (plain_get (lit "/paper/" ++ PaperPage.shown paperId)))
    as [t|resp] eqn:Es; cbn [fst snd].
  - split; [reflexivity|]. split; [discriminate|].
    intros t' [[= <-]|(resp & [=] & _)]. repeat split. now intros ->.
  - destruct (json_body resp) as [t|data] eqn:Ej; cbn [fst snd].
    + split; [reflexivity|]. split; [intros resp' data [= <-]; congruence|].
      intros t' [[=]|(resp' & [= <-] & Ht)].
      assert (t' = t) as -> by congruence. repeat split. now intros ->.
    + split; [reflexivity|]. split;
        [intros resp' data' [= <-] Hd; assert (data' = data) as -> by congruence;
         reflexivity|].
      intros t' [[=]|(resp' & [= <-] & Ht)]. congruence.
Qed.

(** The page at work: the body of a 404 answer becomes the paper, where
    [openPaper] of the search page keeps no paper and an error. *)
Example paper_page_not_found :
  final_state (PaperPage.loadPaper missing_server (Some (lit "PMC100"))) VNull
  = VObj [(lit "detail", VStr (lit "Paper not found"))].
Proof. reflexivity. Qed.

Lemma paper_page_takes_any_body_witness :
  final_state (PaperPage.loadPaper down_server None) VNull = VNull
  /\ effects (PaperPage.loadPaper down_server None) VNull
     = [Fetch (plain_get (lit "/paper/undefined"))].
Proof.
  destruct (paper_page_takes_any_body down_server None VNull) as (Heff & _ & Hfail).
  destruct (Hfail (ThrownError (lit "Failed to fetch")) (or_introl eq_refl)) as (_ & Hst & _).
  split; [exact Hst | exact Heff].
Defined.

End PaperPageFacts.
